(** * KhinsLLM: the memory lifecycle of [agent.py]

    A shallow embedding of the bounded conversational memory kept by
    [agent.py]: [load_memory_file], [save_memory_file], [add_memory],
    [summarize_old_memories] and [get_memory_summary], together with the
    properties of the append / compaction / context cycle.

    Conventions of the embedding.
    - The module-level dict [persistent_memories] is a [gmap] from user
      identity to the user's list of entries; it lives in an explicit
      [World] that every operation threads through.
    - [datetime.utcnow()] is an oracle [utcnow : nat -> Time]: the n-th read
      of the wall clock in the life of the process returns [utcnow n].  A
      timestamp is the instant that was read; [isoformat()] only renders it.
    - The optional [mem0] client is [option Mem0Client]; each remote call
      either returns or raises an [Exception], and may answer differently
      from one call to the next (the calls are numbered).
    - Python exceptions are the [Raise] results of a small state-and-error
      monad.  Calls to [logging] have no effect on the store and are left
      out. *)

From Stdlib Require Import ZArith String Ascii List Lia.
From stdpp Require Import base option list gmap strings pretty.

Local Open Scope string_scope.
Local Open Scope list_scope.

(** ** Python built-ins used by the source *)

Module Py.

(** A slice bound [i] against a sequence of length [len]: a negative bound
    counts from the end, and the result is clamped to [0 .. len]. *)
Definition slice_bound (len : nat) (i : Z) : nat :=
  if (i <? 0)%Z
  then Z.to_nat (Z.max 0 (Z.of_nat len + i))
  else Z.to_nat (Z.min i (Z.of_nat len)).

(** [l[:i]] *)
Definition slice_to {A} (i : Z) (l : list A) : list A :=
  take (slice_bound (length l) i) l.

(** [l[i:]] *)
Definition slice_from {A} (i : Z) (l : list A) : list A :=
  drop (slice_bound (length l) i) l.

(** [sep.join(parts)] *)
Definition join (sep : string) (parts : list string) : string :=
  String.concat sep parts.

(** [s.startswith(p)] *)
Fixpoint startswith (s p : string) {struct p} : bool :=
  match p, s with
  | EmptyString, _ => true
  | String _ _, EmptyString => false
  | String a p', String b s' => if Ascii.eqb a b then startswith s' p' else false
  end.

(** [needle in hay] on strings *)
Fixpoint contains (needle hay : string) : bool :=
  startswith hay needle ||
  match hay with
  | EmptyString => false
  | String _ hay' => contains needle hay'
  end.

(** The line feed character and the one-character string ["\n"]. *)
Definition LF : ascii := "010"%char.
Definition newline : string := String LF EmptyString.

(** [s.split("\n")], accumulating the current piece in [cur] *)
Fixpoint split_lines_from (cur s : string) : list string :=
  match s with
  | EmptyString => [cur]
  | String c s' =>
      if Ascii.eqb c LF then cur :: split_lines_from EmptyString s'
      else split_lines_from (cur +:+ String c EmptyString) s'
  end.

Definition split_lines (s : string) : list string :=
  split_lines_from EmptyString s.

(** [len(s.split("\n"))]: the number of lines of [s] *)
Definition line_count (s : string) : nat := length (split_lines s).

(** [str(n)] for a natural number *)
Definition str_of_nat (n : nat) : string := pretty n.

End Py.

(** ** Data model *)

(** An instant of the wall clock, in microseconds since the epoch. *)
Abbreviation Time := Z.

(** [{"text": ..., "timestamp": ...}] *)
Record MemoryEntry : Type := mkEntry {
  text : string;
  timestamp : Time
}.

(** What a remote call does: it returns a value or raises an [Exception]. *)
Inductive outcome (A : Type) : Type :=
| Returns (a : A)
| Raises.
Arguments Returns {A} a.
Arguments Raises {A}.

(** The [mem0.MemoryClient] collaborator.  The first argument of each method
    is the number of remote calls made before this one. *)
Record Mem0Client : Type := {
  mem0_add : nat -> string -> string -> outcome unit;
  mem0_summarize : nat -> string -> string -> outcome string
}.

(** Effects that leave the process. *)
Inductive Event : Type :=
| EvMem0Add (txt user_id : string)
| EvMem0Summarize (combined_text user_id : string)
| EvSave (memories : gmap string (list MemoryEntry)).

(** The state of the process: the global dict, how often the clock and the
    remote client were consulted, and the effects so far (oldest first). *)
Record World : Type := mkWorld {
  persistent_memories : gmap string (list MemoryEntry);
  clock_reads : nat;
  mem0_calls : nat;
  trace : list Event
}.

Definition init_world : World :=
  {| persistent_memories := ∅; clock_reads := 0; mem0_calls := 0; trace := [] |}.

(** ** A state-and-exception monad *)

Inductive PyExc : Type :=
| KeyError (key : string)
| OSError
| UnicodeDecodeError.

Inductive result (A : Type) : Type :=
| Ok (a : A)
| Raise (e : PyExc).
Arguments Ok {A} a.
Arguments Raise {A} e.

Definition M (A : Type) : Type := World -> result (A * World).

Definition ret {A} (a : A) : M A := fun w => Ok (a, w).

Definition bind {A B} (c : M A) (k : A -> M B) : M B :=
  fun w => match c w with
           | Ok (a, w') => k a w'
           | Raise e => Raise e
           end.

Definition raise {A} (e : PyExc) : M A := fun _ => Raise e.

Declare Scope py_scope.
Delimit Scope py_scope with py.
Notation "x <- c ;; k" := (bind c (fun x => k))
  (at level 100, c at next level, right associativity) : py_scope.
Notation "c ;; k" := (bind c (fun _ => k))
  (at level 100, right associativity) : py_scope.
Local Open Scope py_scope.

(** The final world of a run, when it did not raise. *)
Definition exec {A} (c : M A) (w : World) : result World :=
  match c w with
  | Ok (_, w') => Ok w'
  | Raise e => Raise e
  end.

Definition get_memories : M (gmap string (list MemoryEntry)) :=
  fun w => Ok (persistent_memories w, w).

Definition put_memories (m : gmap string (list MemoryEntry)) : M unit :=
  fun w => Ok (tt, mkWorld m (clock_reads w) (mem0_calls w) (trace w)).

Definition emit (e : Event) : M unit :=
  fun w => Ok (tt, mkWorld (persistent_memories w) (clock_reads w) (mem0_calls w)
                           (trace w ++ [e])).

(** The number of the next remote call; the counter moves on. *)
Definition next_mem0_call : M nat :=
  fun w => Ok (mem0_calls w,
               mkWorld (persistent_memories w) (clock_reads w) (S (mem0_calls w)) (trace w)).

(** [persistent_memories[user_id]] as an expression *)
Definition getitem (user_id : string) : M (list MemoryEntry) :=
  m <- get_memories ;;
  match m !! user_id with
  | Some l => ret l
  | None => raise (KeyError user_id)
  end.

(** [persistent_memories[user_id] = l] *)
Definition setitem (user_id : string) (l : list MemoryEntry) : M unit :=
  m <- get_memories ;;
  put_memories (<[user_id := l]> m).

(** ** The memory subsystem of [agent.py] *)

Definition user_name : string := "Kinga".
Definition MEMORY_FILE : string := "memory_store.json".

Section Agent.

(** The wall clock and the optional remote client of this process. *)
Variable utcnow : nat -> Time.
Variable mem0 : option Mem0Client.

(** [datetime.utcnow()] *)
Definition datetime_utcnow : M Time :=
  fun w => Ok (utcnow (clock_reads w),
               mkWorld (persistent_memories w) (S (clock_reads w)) (mem0_calls w) (trace w)).

(** [save_memory_file(memories)]: the whole mapping is handed to the
    durable file; a failing write is logged and swallowed, so the call
    always returns. *)
Definition save_memory_file (memories : gmap string (list MemoryEntry)) : M unit :=
  emit (EvSave memories).

Definition summarize_old_memories (user_id : string) : M unit :=
  log <- getitem user_id ;;
  let old_memories := Py.slice_to (-20) log in
  let combined_text := Py.join " " (text <$> old_memories) in
  summary <-
    match mem0 with
    | Some client =>
        n <- next_mem0_call ;;
        emit (EvMem0Summarize combined_text user_id) ;;
        match mem0_summarize client n combined_text user_id with
        | Returns s => ret s
        | Raises => ret " (failed to summarize older memories) "
        end
    | None => ret "Past conversations and interactions"
    end ;;
  now <- datetime_utcnow ;;
  log' <- getitem user_id ;;
  setitem user_id
    ({| text := "Summary of past: " +:+ summary; timestamp := now |}
       :: Py.slice_from (-20) log').

Definition add_memory (txt : string) : M unit :=
  match mem0 with
  | Some client =>
      n <- next_mem0_call ;;
      emit (EvMem0Add txt user_name) ;;
      match mem0_add client n txt user_name with
      | Returns _ => ret tt
      | Raises => ret tt
      end
  | None => ret tt
  end ;;
  m <- get_memories ;;
  match m !! user_name with
  | None => setitem user_name []
  | Some _ => ret tt
  end ;;
  log <- getitem user_name ;;
  now <- datetime_utcnow ;;
  setitem user_name (log ++ [{| text := txt; timestamp := now |}]) ;;
  log1 <- getitem user_name ;;
  (if (50 <? length log1)%nat
   then summarize_old_memories user_name
   else ret tt) ;;
  m' <- get_memories ;;
  save_memory_file m'.

(** Several appends in a row, oldest first. *)
Fixpoint add_memories (txts : list string) : M unit :=
  match txts with
  | [] => ret tt
  | t :: ts => add_memory t ;; add_memories ts
  end.

End Agent.

(** [get_memory_summary()] only reads the dict. *)
Definition get_memory_summary (w : World) : string :=
  let file_memories := default [] (persistent_memories w !! user_name) in
  let recent := text <$> Py.slice_from (-5) file_memories in
  match recent with
  | [] => "No past memories yet."
  | _ => Py.join Py.newline ((fun m => "- " +:+ m) <$> recent)
  end.

(** The log of the configured user, empty when the user has none. *)
Definition user_log (w : World) : list MemoryEntry :=
  default [] (persistent_memories w !! user_name).


(** ** Loading the durable file *)

(** A value produced by [json.load]. *)
#[local] Unset Elimination Schemes.
Inductive json : Type :=
| JNull
| JBool (b : bool)
| JNum (n : Z)
| JStr (s : string)
| JList (items : list json)
| JDict (pairs : list (string * json)).
#[local] Set Elimination Schemes.

(** What [open(path, "r")] followed by [json.load(f)] does on an existing
    file: the content parses to a value, or it is not a JSON document, or
    opening or decoding the bytes raises something else. *)
Inductive FileBehaviour : Type :=
| Parses (v : json)
| JSONDecodeError
| ReadFails (e : PyExc).

(** The durable storage: [None] where [os.path.exists] is false. *)
Definition Disk : Type := string -> option FileBehaviour.

Definition load_memory_file (disk : Disk) : result json :=
  match disk MEMORY_FILE with
  | Some (Parses v) => Ok v
  | Some JSONDecodeError => Ok (JDict [])
  | Some (ReadFails e) => Raise e
  | None => Ok (JDict [])
  end.

(** The persistence format: a mapping from user identity to a list of
    [{"text": <string>, "timestamp": <string>}] objects. *)
Definition is_string (v : option json) : bool :=
  match v with
  | Some (JStr _) => true
  | _ => false
  end.

Definition json_field (k : string) (pairs : list (string * json)) : option json :=
  snd <$> find (fun kv => String.eqb (fst kv) k) (rev pairs).

Definition is_entry (v : json) : bool :=
  match v with
  | JDict fields =>
      is_string (json_field "text" fields) && is_string (json_field "timestamp" fields)
  | _ => false
  end.

Definition is_memory_state (v : json) : bool :=
  match v with
  | JDict pairs =>
      forallb (fun kv => match snd kv with
                         | JList es => forallb is_entry es
                         | _ => false
                         end) pairs
  | _ => false
  end.

(** ** Vocabulary of the properties *)

(** Timestamps that never go back from the first entry to the last. *)
Definition non_decreasing (ts : list Time) : Prop :=
  forall i j a b, i <= j -> ts !! i = Some a -> ts !! j = Some b -> (a <= b)%Z.

(** A wall clock that never goes back from one read to the next. *)
Definition clock_monotone (utcnow : nat -> Time) : Prop :=
  forall i j, i <= j -> (utcnow i <= utcnow j)%Z.

(** The worlds a process reaches from an empty store by appending. *)
Inductive reachable (utcnow : nat -> Time) (mem0 : option Mem0Client) : World -> Prop :=
| reach_init : reachable utcnow mem0 init_world
| reach_add w txt w' :
    reachable utcnow mem0 w ->
    exec (add_memory utcnow mem0 txt) w = Ok w' ->
    reachable utcnow mem0 w'.

(** What every log reached from an empty store satisfies: behind the first
    entry the timestamps never go back, and every timestamp is a clock read
    the process has already made. *)
Definition log_invariant (utcnow : nat -> Time) (w : World) : Prop :=
  non_decreasing (timestamp <$> tail (user_log w)) /\
  Forall (fun e => exists i, i < clock_reads w /\ timestamp e = utcnow i) (user_log w).

(** The entry an append creates in world [w]. *)
Definition new_entry (utcnow : nat -> Time) (w : World) (txt : string) : MemoryEntry :=
  {| text := txt; timestamp := utcnow (clock_reads w) |}.

(** The entries a run of appends creates, the first one at clock read [c]. *)
Definition stamped (utcnow : nat -> Time) (c : nat) (txts : list string)
  : list MemoryEntry :=
  imap (fun i t => {| text := t; timestamp := utcnow (c + i) |}) txts.
Arguments stamped : simpl never.

(** The summary compaction settles on, for remote call number [n]. *)
Definition summary_for (mem0 : option Mem0Client) (n : nat) (combined_text user_id : string)
  : string :=
  match mem0 with
  | Some client =>
      match mem0_summarize client n combined_text user_id with
      | Returns s => s
      | Raises => " (failed to summarize older memories) "
      end
  | None => "Past conversations and interactions"
  end.

(** The remote calls one operation adds to the trace and to the counter. *)
Definition remote_event (mem0 : option Mem0Client) (e : Event) : list Event :=
  match mem0 with
  | Some _ => [e]
  | None => []
  end.

Definition remote_count (mem0 : option Mem0Client) : nat :=
  match mem0 with
  | Some _ => 1
  | None => 0
  end.

Definition is_save (e : Event) : bool :=
  match e with
  | EvSave _ => true
  | _ => false
  end.

(** ** Concrete environments and inputs *)

(** A clock that advances by one microsecond at every read. *)
Definition tick : nat -> Time := fun n => Z.of_nat n.

(** A wall clock that is set back between its first and its second read:
    it reads 5, then 3 from then on. *)
Definition set_back : nat -> Time :=
  fun n => match n with 0 => 5%Z | S _ => 3%Z end.

(** A client whose every call raises. *)
Definition failing_client : Mem0Client :=
  {| mem0_add := fun _ _ _ => Raises; mem0_summarize := fun _ _ _ => Raises |}.

(** A client that answers every summary request with a fixed digest. *)
Definition digest_client : Mem0Client :=
  {| mem0_add := fun _ _ _ => Returns tt;
     mem0_summarize := fun _ _ _ => Returns "digest" |}.

(** A client whose summarizer answers with a fixed digest during its first
    60 remote calls and raises afterwards. *)
Definition flaky_client : Mem0Client :=
  {| mem0_add := fun _ _ _ => Returns tt;
     mem0_summarize := fun n _ _ => if (n <? 60)%nat then Returns "digest" else Raises |}.

(** The texts ["m0"], ..., ["m<n-1>"], in that order. *)
Definition m_text (i : nat) : string := "m" +:+ Py.str_of_nat i.
Definition m_texts (n : nat) : list string := m_text <$> seq 0 n.

(** A world whose only content is a log for the configured user. *)
Definition world_of_log (l : list MemoryEntry) : World :=
  {| persistent_memories := {[ user_name := l ]};
     clock_reads := length l; mem0_calls := 0; trace := [] |}.

(** A disk that holds one file with the given behaviour. *)
Definition disk_with (b : FileBehaviour) : Disk :=
  fun path => if String.eqb path MEMORY_FILE then Some b else None.

Definition empty_disk : Disk := fun _ => None.

(** The world after appending ["m0"] .. ["m<n-1>"] to the empty store, on
    the ticking clock. *)
Definition world_after (mem0 : option Mem0Client) (n : nat) : World :=
  match exec (add_memories tick mem0 (m_texts n)) init_world with
  | Ok w => w
  | Raise _ => init_world
  end.

(** A text of six lines. *)
Definition six_lines : string :=
  "a" +:+ Py.newline +:+ "b" +:+ Py.newline +:+ "c" +:+ Py.newline +:+
  "d" +:+ Py.newline +:+ "e" +:+ Py.newline +:+ "f".

(** ** Read-only endpoints of [agent.py] *)

(** The body of [GET /health]. *)
Record HealthReport : Type := {
  health_status : string;
  memory_entries : nat
}.

Definition health_check (w : World) : HealthReport :=
  {| health_status := "healthy";
     memory_entries := length (default [] (persistent_memories w !! user_name)) |}.

(** The body of [GET /memory]. *)
Record MemoryReport : Type := {
  report_user : string;
  report_memories : list MemoryEntry;
  report_summary : string
}.

Definition get_memory (w : World) : MemoryReport :=
  {| report_user := user_name;
     report_memories := default [] (persistent_memories w !! user_name);
     report_summary := get_memory_summary w |}.

(** ** Vocabulary of the growth cycle *)

(** The length of a log after one more append, from its length before. *)
Definition next_length (k : nat) : nat := if (50 <=? k)%nat then 21 else S k.

(** The length of a log after [n] appends to an empty log. *)
Definition log_length_after (n : nat) : nat :=
  if (n <=? 50)%nat then n else 21 + (n - 51) mod 30.

(** The number of compactions during [n] appends to an empty log. *)
Definition compactions_after (n : nat) : nat :=
  if (n <=? 50)%nat then 0 else 1 + (n - 51) / 30.

(** Appends counted rather than listed: the length and the clock after
    each of [n] appends, from the length and clock before. *)
Fixpoint lengths_from (n k : nat) : nat :=
  match n with
  | 0 => k
  | S n' => lengths_from n' (next_length k)
  end.

(** The clock reads made by [n] appends to a log of length [k]: one per
    append and one more per compaction. *)
Fixpoint clock_reads_from (n k : nat) : nat :=
  match n with
  | 0 => 0
  | S n' => (if (50 <=? k)%nat then 2 else 1) + clock_reads_from n' (next_length k)
  end.

(** A store that also holds the log of another user. *)
Definition two_user_world : World :=
  {| persistent_memories :=
       <[ "Amina" := [ {| text := "hello"; timestamp := 7 |} ] ]>
         {[ user_name := [ {| text := "hi"; timestamp := 3 |} ] ]};
     clock_reads := 8; mem0_calls := 0; trace := [] |}.

(** ** The conversation handlers of [agent.py]

    The handlers run the memory inside a session that also holds what the
    rest of the runtime sees: the prompts handed to the language model, the
    calls of [process_speech], the messages handed to [send_message] and the
    agent's current mode.  The language model, the transport, the random
    styling inside [process_speech] and the two [str] methods the handlers
    use are collaborators, consulted through a [Runtime].  A handler is run
    on its own: what another request does while this one awaits the model
    is not part of the run. *)

(** What a call into the runtime does: it returns, or it raises an
    [Exception] whose [str()] is [msg]. *)
Inductive call (A : Type) : Type :=
| Done (a : A)
| Throws (msg : string).
Arguments Done {A} a.
Arguments Throws {A} msg.

Record Runtime : Type := {
  (** [s.lower()] *)
  str_lower : string -> string;
  (** [not s.strip()] *)
  str_blank : string -> bool;
  (** whether the module-level [llm_instance] is set *)
  llm_instance : bool;
  (** [agent.llm.generate(prompt)], by call number *)
  llm_generate : nat -> string -> call string;
  (** [self.generate(prompt)], by call number *)
  agent_generate : nat -> string -> call string;
  (** the laughter, filler and language blending [process_speech] applies
      to a text that is not blank, by call number: [text], [user_input],
      [mode] *)
  speech_styled : nat -> string -> string -> string -> string;
  (** [self.send_message(text)], by call number *)
  send_message : nat -> string -> call unit;
  (** [KhinsGPTAgent()], by call number *)
  agent_new : nat -> call unit
}.

Record Session : Type := mkSession {
  world : World;
  current_mode : string;
  prompts : list string;
  speech_calls : list (string * string * string);
  outbox : list string;
  agents : nat
}.

Inductive HandlerExc : Type :=
| HTTPException (status_code : nat) (detail : string)
| UnboundLocalError (name : string)
| RuntimeException (msg : string).

(** A handler ends in a value or an exception; the session it leaves
    behind is kept in both cases. *)
Definition Handler (A : Type) : Type := Session -> (HandlerExc + A) * Session.

Definition set_world (s : Session) (w : World) : Session :=
  mkSession w (current_mode s) (prompts s) (speech_calls s) (outbox s) (agents s).

Definition set_mode (s : Session) (mode : string) : Session :=
  mkSession (world s) mode (prompts s) (speech_calls s) (outbox s) (agents s).

Definition log_prompt (s : Session) (p : string) : Session :=
  mkSession (world s) (current_mode s) (prompts s ++ [p]) (speech_calls s) (outbox s)
            (agents s).

Definition log_speech (s : Session) (c : string * string * string) : Session :=
  mkSession (world s) (current_mode s) (prompts s) (speech_calls s ++ [c]) (outbox s)
            (agents s).

Definition log_send (s : Session) (m : string) : Session :=
  mkSession (world s) (current_mode s) (prompts s) (speech_calls s) (outbox s ++ [m])
            (agents s).

Definition count_agent (s : Session) : Session :=
  mkSession (world s) (current_mode s) (prompts s) (speech_calls s) (outbox s)
            (S (agents s)).

(** The body of a response of [POST /chat]. *)
Record ChatResponse : Type := {
  response : string;
  status : string
}.

(** [f"User said: {message}\n\nMemory context:\n{context}"] *)
Definition full_prompt (message context : string) : string :=
  "User said: " +:+ message +:+ Py.newline +:+ Py.newline +:+
  "Memory context:" +:+ Py.newline +:+ context.

(** [any(phrase in s for phrase in phrases)] *)
Definition any_in (phrases : list string) (s : string) : bool :=
  existsb (fun phrase => Py.contains phrase s) phrases.

Section Handlers.

Variable R : Runtime.
Variable utcnow : nat -> Time.
Variable mem0 : option Mem0Client.

(** [add_memory(txt)] as a handler step.  An append returns in every world,
    so the second branch is never taken. *)
Definition record_memory (txt : string) (s : Session) : Session :=
  match exec (add_memory utcnow mem0 txt) (world s) with
  | Ok w' => set_world s w'
  | Raise _ => s
  end.

(** [process_speech(text, user_input, mode)] of [speech_utils.py]: a blank
    text is returned as it is, any other text goes through the styling. *)
Definition process_speech (txt user_input mode : string) (s : Session)
  : string * Session :=
  let s' := log_speech s (txt, user_input, mode) in
  if String.eqb txt "" || str_blank R txt
  then (txt, s')
  else (speech_styled R (length (speech_calls s)) txt user_input mode, s').

(** [POST /chat] *)
Definition chat_endpoint (message : string) : Handler ChatResponse :=
  fun s =>
    if negb (llm_instance R)
    then (inl (HTTPException 503 "LLM not initialized"), s)
    else
      let s1 := record_memory ("User (HTTP): " +:+ message) s in
      match agent_new R (agents s1) with
      | Throws msg => (inl (RuntimeException msg), count_agent s1)
      | Done _ =>
          let s2 := count_agent s1 in
          let context := get_memory_summary (world s2) in
          let prompt := full_prompt message context in
          let s3 := log_prompt s2 prompt in
          match llm_generate R (length (prompts s2)) prompt with
          | Done reply =>
              let (natural_reply, s4) := process_speech reply "chaotic" "chaotic" s3 in
              let s5 := record_memory ("Assistant: " +:+ natural_reply) s4 in
              (inr {| response := natural_reply; status := "success" |}, s5)
          | Throws msg =>
              (inl (HTTPException 500 ("Error generating response: " +:+ msg)), s3)
          end
      end.

(** The mode switch of [on_message]. *)
Definition switch_mode (user_text_lower : string) (s : Session) : Session :=
  if any_in ["nonchalant mode"; "go chill"; "chill mode"] user_text_lower
  then set_mode s "nonchalant"
  else if any_in ["chaotic mode"; "be wild again"] user_text_lower
  then set_mode s "chaotic"
  else if Py.contains "therapy" user_text_lower
  then set_mode s "therapist"
  else s.

(** The [try] block of [on_message]: the local [natural_reply] when it got
    bound, the exception when one was raised, and the session. *)
Definition on_message_try (prompt : string) (s : Session)
  : option string * option string * Session :=
  let s1 := log_prompt s prompt in
  match agent_generate R (length (prompts s)) prompt with
  | Throws msg => (None, Some msg, s1)
  | Done reply =>
      let (natural_reply, s2) := process_speech reply (current_mode s1) "chaotic" s1 in
      if str_blank R natural_reply
      then (Some natural_reply, None, s2)
      else
        match send_message R (length (outbox s2)) natural_reply with
        | Done _ => (Some natural_reply, None, log_send s2 natural_reply)
        | Throws msg => (Some natural_reply, Some msg, log_send s2 natural_reply)
        end
  end.

(** [KhinsGPTAgent.on_message(message)] *)
Definition on_message (role txt : string) : Handler unit :=
  fun s =>
    if negb (String.eqb role "user")
    then (inr tt, s)
    else
      let s1 := record_memory ("User: " +:+ txt) s in
      let s2 := switch_mode (str_lower R txt) s1 in
      let context := get_memory_summary (world s2) in
      let '(natural_reply, raised, s3) := on_message_try (full_prompt txt context) s2 in
      let handled :=
        match raised with
        | None => (None, s3)
        | Some _ =>
            let (error_reply, s4) :=
              process_speech "Um, sorry, I hit an error while thinking."
                             (current_mode s3) "chaotic" s3 in
            match send_message R (length (outbox s4)) error_reply with
            | Done _ => (None, log_send s4 error_reply)
            | Throws msg => (Some msg, log_send s4 error_reply)
            end
        end in
      match handled with
      | (Some msg, s5) => (inl (RuntimeException msg), s5)
      | (None, s5) =>
          match natural_reply with
          | None => (inl (UnboundLocalError "natural_reply"), s5)
          | Some reply =>
              (inr tt,
               record_memory
                 ("Assistant: " +:+
                  (if str_blank R reply then "[Tool executed silently]" else reply))
                 s5)
          end
      end.

End Handlers.

(** [str.lower] on ASCII text: the letters A to Z become a to z. *)
Definition ascii_lower (c : ascii) : ascii :=
  let n := nat_of_ascii c in
  if (65 <=? n)%nat && (n <=? 90)%nat then ascii_of_nat (n + 32) else c.

Fixpoint lower_ascii (s : string) : string :=
  match s with
  | EmptyString => EmptyString
  | String c s' => String (ascii_lower c) (lower_ascii s')
  end.

(** [not s.strip()] on ASCII text: only blanks, tabs and line breaks. *)
Definition ascii_space (c : ascii) : bool :=
  let n := nat_of_ascii c in
  (n =? 32)%nat || ((9 <=? n)%nat && (n <=? 13)%nat) || ((28 <=? n)%nat && (n <=? 31)%nat).

Fixpoint blank_ascii (s : string) : bool :=
  match s with
  | EmptyString => true
  | String c s' => ascii_space c && blank_ascii s'
  end.

(** A runtime whose model answers every prompt with the same reply. *)
Definition echo_runtime (reply : string) : Runtime :=
  {| str_lower := lower_ascii;
     str_blank := blank_ascii;
     llm_instance := true;
     llm_generate := fun _ _ => Done reply;
     agent_generate := fun _ _ => Done reply;
     speech_styled := fun _ txt _ _ => "heh, " +:+ txt;
     send_message := fun _ _ => Done tt;
     agent_new := fun _ => Done tt |}.

(** A runtime whose model fails on every prompt. *)
Definition broken_runtime : Runtime :=
  {| str_lower := lower_ascii;
     str_blank := blank_ascii;
     llm_instance := true;
     llm_generate := fun _ _ => Throws "model unreachable";
     agent_generate := fun _ _ => Throws "model unreachable";
     speech_styled := fun _ txt _ _ => "um, " +:+ txt;
     send_message := fun _ _ => Done tt;
     agent_new := fun _ => Done tt |}.

Definition init_session : Session :=
  {| world := init_world; current_mode := "chaotic"; prompts := [];
     speech_calls := []; outbox := []; agents := 0 |}.

(** ** The timer tools of [tools.py]

    [active_timers] maps a timer id to ["RUNNING"] or ["DONE"].  Every
    [set_timer] starts a daemon thread that sleeps and then marks its id
    done; the threads that have been started and have not ended yet are
    part of the state, and [thread_ends] is the step one of them takes when
    its sleep is over or is refused.  [random.randint(1000, 9999)] and
    [Thread.start()] are consulted by call number. *)

(** [str(n)] for an integer *)
Definition str_of_int (n : Z) : string := pretty n.

Record Timers : Type := mkTimers {
  active_timers : gmap Z string;
  (** live threads, oldest first: seconds to sleep and timer id *)
  timer_threads : list (Z * Z);
  (** calls of [set_timer] so far *)
  timers_set : nat
}.

Definition no_timers : Timers :=
  {| active_timers := ∅; timer_threads := []; timers_set := 0 |}.

(** [time.sleep(seconds)] for an integer length.  CPython first converts
    the length to a signed 64-bit count of nanoseconds, which raises
    OverflowError for a length beyond [sleep_max] seconds in either
    direction, and then raises ValueError for a negative length; otherwise
    the call returns when the time has passed. *)
Inductive sleep_outcome : Type :=
| Slept
| SleepValueError
| SleepOverflowError.

(** [(2^63 - 1) // 10^9] *)
Definition sleep_max : Z := 9223372036.

Definition time_sleep (seconds : Z) : sleep_outcome :=
  if (seconds <? - sleep_max)%Z || (sleep_max <? seconds)%Z then SleepOverflowError
  else if (seconds <? 0)%Z then SleepValueError
  else Slept.

Section TimerTools.

Variable randint : nat -> Z.
Variable thread_start : nat -> call unit.

(** [set_timer(context, minutes)] *)
Definition set_timer (minutes : Z) (T : Timers) : string * Timers :=
  let seconds := (minutes * 60)%Z in
  let timer_id := randint (timers_set T) in
  let timers := <[timer_id := "RUNNING"]> (active_timers T) in
  match thread_start (timers_set T) with
  | Done _ =>
      ("", mkTimers timers (timer_threads T ++ [(seconds, timer_id)]) (S (timers_set T)))
  | Throws msg =>
      ("Uh, failed to set timer: " +:+ msg,
       mkTimers timers (timer_threads T) (S (timers_set T)))
  end.

(** The [k]-th live thread ends: [time.sleep] returns and [timer_thread]
    marks its id done, or [time.sleep] refuses the length and the thread
    dies without a mark. *)
Definition thread_ends (k : nat) (T : Timers) : Timers :=
  match timer_threads T !! k with
  | None => T
  | Some (seconds, timer_id) =>
      mkTimers
        (match time_sleep seconds with
         | Slept => <[timer_id := "DONE"]> (active_timers T)
         | SleepValueError | SleepOverflowError => active_timers T
         end)
        (delete k (timer_threads T))
        (timers_set T)
  end.

(** [check_timer(context, timer_id)] *)
Definition check_timer (timer_id : Z) (T : Timers) : string * Timers :=
  let status := default "NOT_FOUND" (active_timers T !! timer_id) in
  if String.eqb status "DONE"
  then ("Timer " +:+ str_of_int timer_id +:+ " is DONE! Time's up!",
        mkTimers (delete timer_id (active_timers T)) (timer_threads T) (timers_set T))
  else if String.eqb status "RUNNING"
  then ("Timer " +:+ str_of_int timer_id +:+ " is still running.", T)
  else ("Timer " +:+ str_of_int timer_id +:+ " not found.", T).

(** The timer states the tools and the threads lead to. *)
Inductive timers_reachable : Timers -> Prop :=
| timers_init : timers_reachable no_timers
| timers_set_step T minutes :
    timers_reachable T -> timers_reachable (snd (set_timer minutes T))
| timers_end_step T k :
    timers_reachable T -> timers_reachable (thread_ends k T)
| timers_check_step T timer_id :
    timers_reachable T -> timers_reachable (snd (check_timer timer_id T)).

End TimerTools.

(** What holds of every reachable timer state when the draws are in range:
    the table only holds ids from 1000 to 9999, each with one of the two
    statuses, and the live threads carry such ids. *)
Definition timers_ok (T : Timers) : Prop :=
  (forall timer_id st,
     active_timers T !! timer_id = Some st ->
     (st = "RUNNING" \/ st = "DONE") /\ (1000 <= timer_id <= 9999)%Z) /\
  Forall (fun th => (1000 <= snd th <= 9999)%Z) (timer_threads T).

(** A generator that always draws the same id, and thread starts that
    always succeed. *)
Definition same_draw (timer_id : Z) : nat -> Z := fun _ => timer_id.
Definition threads_start : nat -> call unit := fun _ => Done tt.

(** ** The text utilities of [prompts.py]

    [str.lower] is a parameter of each of them. *)

Definition WAKE_WORDS : list string := ["Khin"; "KhinsLLM"; "KhinsGPT"].

Definition KISWAHILI_COMMON : list string :=
  ["sasa"; "kweli"; "ndiyo"; "hapana"; "pole"; "karibu"; "rafiki"; "ndugu";
   "leo"; "kesho"; "jana"; "asante"; "tafadhali"; "basi"; "hivi"; "kama";
   "wewe"; "mimi"; "yeye"; "wapi"; "nini"; "unajua"; "niko"; "uko"; "bana"].

Section TextUtilities.

Variable lower : string -> string.

Definition is_called (txt : string) : bool :=
  let text_lower := lower txt in
  existsb (fun wake => Py.contains (lower wake) text_lower) WAKE_WORDS.

Definition detect_kiswahili (txt : string) : bool :=
  let text_lower := lower txt in
  existsb (fun word => Py.contains word text_lower) KISWAHILI_COMMON.

(** [blend_languages(reply, user_input)]: [coin] is the outcome of
    [random.random() < 0.4] and [pick] the index [random.choice] draws. *)
Definition blend_languages (coin : bool) (pick : nat) (reply user_input : string)
  : string :=
  if detect_kiswahili user_input
  then
    let inserts := ["sawa"; "kweli"; "wewe unajua"; "basi"; "hapo"] in
    if coin then reply +:+ " " +:+ default "" (inserts !! pick) else reply
  else reply.

(** [detect_special_users(text)]: the loop appends to [mentioned]. *)
Definition detect_special_users (txt : string) : list string :=
  let special_users := ["alvin"; "makutu"; "lumiti"] in
  let text_lower := lower txt in
  fold_left
    (fun mentioned user =>
       if Py.contains user text_lower then mentioned ++ [user] else mentioned)
    special_users [].

End TextUtilities.

(** The modes an agent can be in. *)
Definition agent_modes : list string := ["chaotic"; "nonchalant"; "therapist"].

(** The mode [on_message] leaves the agent in, from the lowered text and
    the mode before. *)
Definition mode_after (user_text_lower mode : string) : string :=
  if any_in ["nonchalant mode"; "go chill"; "chill mode"] user_text_lower
  then "nonchalant"
  else if any_in ["chaotic mode"; "be wild again"] user_text_lower
  then "chaotic"
  else if Py.contains "therapy" user_text_lower
  then "therapist"
  else mode.

(** ** The music tools of [music_tool.py]

    The module keeps the current VLC player (a handle, numbered in the
    order of creation) and the last song.  The calls made on players are
    kept in order; they are taken to return.  The search on YouTube Music,
    the extraction of the stream and [player.is_playing()] are consulted by
    call number. *)

Inductive VlcCall : Type :=
| PlayerStop (p : nat)
| PlayerNew (p : nat) (url : string)
| PlayerPlay (p : nat)
| PlayerPause (p : nat)
| PlayerSetVolume (p : nat) (level : Z).

Record Music : Type := mkMusic {
  player : option nat;
  (** title and url *)
  last_song : option string * option string;
  vlc_calls : list VlcCall;
  players_made : nat;
  (** calls of [play_music] and of [is_playing] so far *)
  songs_asked : nat;
  playing_asked : nat
}.

Definition no_music : Music :=
  {| player := None; last_song := (None, None); vlc_calls := [];
     players_made := 0; songs_asked := 0; playing_asked := 0 |}.

(** The player a call is made on (for [PlayerNew], the one it creates). *)
Definition vlc_target (c : VlcCall) : nat :=
  match c with
  | PlayerStop p | PlayerNew p _ | PlayerPlay p | PlayerPause p
  | PlayerSetVolume p _ => p
  end.

Record MusicServices : Type := {
  (** [ytmusic.search(song, filter="songs")]: the ["videoId"] of each
      result, when it has one *)
  yt_search : nat -> string -> call (list (option string));
  (** [ydl.extract_info(url, download=False)]: its ["url"], when it has one *)
  yt_extract : nat -> string -> call (option string);
  (** [player.is_playing()] *)
  vlc_is_playing : nat -> bool
}.

Section MusicTools.

Variable V : MusicServices.

(** [_get_stream_url(song)], for call number [n] *)
Definition _get_stream_url (n : nat) (song : string) : option string :=
  match yt_search V n song with
  | Throws _ => None
  | Done [] => None
  | Done (None :: _) => None
  | Done (Some video_id :: _) =>
      match yt_extract V n ("https://www.youtube.com/watch?v=" +:+ video_id) with
      | Done (Some url) => Some url
      | Done None => None
      | Throws _ => None
      end
  end.

(** [play_music(ctx, song)] *)
Definition play_music (song : string) (M : Music) : string * Music :=
  let asked := S (songs_asked M) in
  match _get_stream_url (songs_asked M) song with
  | None =>
      ("Sorry, couldn’t find '" +:+ song +:+ "'.",
       mkMusic (player M) (last_song M) (vlc_calls M) (players_made M) asked
               (playing_asked M))
  | Some stream_url =>
      if String.eqb stream_url ""
      then ("Sorry, couldn’t find '" +:+ song +:+ "'.",
            mkMusic (player M) (last_song M) (vlc_calls M) (players_made M) asked
                    (playing_asked M))
      else
        let stopped :=
          match player M with
          | Some old => [PlayerStop old]
          | None => []
          end in
        let p := players_made M in
        ("▶️ Now playing: " +:+ song,
         mkMusic (Some p) (Some song, Some stream_url)
                 (vlc_calls M ++ stopped ++ [PlayerNew p stream_url; PlayerPlay p])
                 (S p) asked (playing_asked M))
  end.

(** [pause_music(ctx)] *)
Definition pause_music (M : Music) : string * Music :=
  match player M with
  | Some p =>
      let M' := mkMusic (player M) (last_song M) (vlc_calls M) (players_made M)
                        (songs_asked M) (S (playing_asked M)) in
      if vlc_is_playing V (playing_asked M)
      then ("⏸️ Music paused.",
            mkMusic (player M) (last_song M) (vlc_calls M ++ [PlayerPause p])
                    (players_made M) (songs_asked M) (S (playing_asked M)))
      else ("No music is currently playing.", M')
  | None => ("No music is currently playing.", M)
  end.

(** [resume_music(ctx)] *)
Definition resume_music (M : Music) : string * Music :=
  match player M with
  | Some p =>
      ("▶️ Resumed music.",
       mkMusic (player M) (last_song M) (vlc_calls M ++ [PlayerPlay p])
               (players_made M) (songs_asked M) (playing_asked M))
  | None => ("No song to resume.", M)
  end.

(** [stop_music(ctx)] *)
Definition stop_music (M : Music) : string * Music :=
  match player M with
  | Some p =>
      ("⏹️ Music stopped.",
       mkMusic None (None, None) (vlc_calls M ++ [PlayerStop p])
               (players_made M) (songs_asked M) (playing_asked M))
  | None => ("No music is currently playing.", M)
  end.

(** [set_volume(ctx, level)] *)
Definition set_volume (level : Z) (M : Music) : string * Music :=
  match player M with
  | None => ("No music is playing to adjust volume.", M)
  | Some p =>
      if (level <? 0)%Z || (100 <? level)%Z
      then ("Volume level must be between 0 and 100.", M)
      else ("🔊 Volume set to " +:+ str_of_int level +:+ "%",
            mkMusic (player M) (last_song M) (vlc_calls M ++ [PlayerSetVolume p level])
                    (players_made M) (songs_asked M) (playing_asked M))
  end.

(** The music states the tools lead to. *)
Inductive music_reachable : Music -> Prop :=
| music_init : music_reachable no_music
| music_play M song : music_reachable M -> music_reachable (snd (play_music song M))
| music_pause M : music_reachable M -> music_reachable (snd (pause_music M))
| music_resume M : music_reachable M -> music_reachable (snd (resume_music M))
| music_stop M : music_reachable M -> music_reachable (snd (stop_music M))
| music_volume M level :
    music_reachable M -> music_reachable (snd (set_volume level M)).

End MusicTools.

(** What every reachable music state satisfies. *)
Definition music_ok (M : Music) : Prop :=
  match player M with
  | Some p =>
      p < players_made M /\
      exists title url, last_song M = (Some title, Some url) /\ url <> ""
  | None => last_song M = (None, None)
  end /\
  Forall (fun c =>
            match c with
            | PlayerSetVolume p level => p < players_made M /\ (0 <= level <= 100)%Z
            | PlayerStop p | PlayerPlay p | PlayerPause p | PlayerNew p _ =>
                p < players_made M
            end) (vlc_calls M).

(** Services that find one stream for every song and report it playing. *)
Definition one_stream : MusicServices :=
  {| yt_search := fun _ _ => Done [Some "abc123"];
     yt_extract := fun _ _ => Done (Some "https://stream.example/abc123");
     vlc_is_playing := fun _ => true |}.

(** Services whose search finds nothing. *)
Definition no_results : MusicServices :=
  {| yt_search := fun _ _ => Done [];
     yt_extract := fun _ _ => Throws "unused";
     vlc_is_playing := fun _ => false |}.

(** * Properties *)

(** ** Slices *)

Lemma slice_to_neg {A} (k : nat) (l : list A) :
  Py.slice_to (- Z.of_nat (S k)) l = take (length l - S k) l.
Proof.
  unfold Py.slice_to, Py.slice_bound.
  destruct (Z.ltb_spec (- Z.of_nat (S k)) 0) as [_|H]; [|lia].
  f_equal. lia.
Qed.

Lemma slice_from_neg {A} (k : nat) (l : list A) :
  Py.slice_from (- Z.of_nat (S k)) l = drop (length l - S k) l.
Proof.
  unfold Py.slice_from, Py.slice_bound.
  destruct (Z.ltb_spec (- Z.of_nat (S k)) 0) as [_|H]; [|lia].
  f_equal. lia.
Qed.

Lemma slice_to_20 {A} (l : list A) : Py.slice_to (-20) l = take (length l - 20) l.
Proof. exact (slice_to_neg 19 l). Qed.

Lemma slice_from_20 {A} (l : list A) : Py.slice_from (-20) l = drop (length l - 20) l.
Proof. exact (slice_from_neg 19 l). Qed.

Lemma slice_from_5 {A} (l : list A) : Py.slice_from (-5) l = drop (length l - 5) l.
Proof. exact (slice_from_neg 4 l). Qed.

(** The two slices of compaction partition the log. *)
Lemma slice_partition {A} (l : list A) :
  Py.slice_to (-20) l ++ Py.slice_from (-20) l = l.
Proof. rewrite slice_to_20, slice_from_20. apply take_drop. Qed.

(** A log split as [old ++ recent] with [recent] of the slice's width is
    split where the slices split it. *)
Lemma drop_app_suffix {A} (old recent : list A) (k : nat) :
  length recent = k -> drop (length (old ++ recent) - k) (old ++ recent) = recent.
Proof.
  intros <-. rewrite length_app.
  replace (length old + length recent - length recent) with (length old) by lia.
  by rewrite drop_app_length.
Qed.

Lemma take_app_prefix {A} (old recent : list A) (k : nat) :
  length recent = k -> take (length (old ++ recent) - k) (old ++ recent) = old.
Proof.
  intros <-. rewrite length_app.
  replace (length old + length recent - length recent) with (length old) by lia.
  by rewrite take_app_length.
Qed.

(** ** Running the operations *)

Ltac run_step :=
  cbv beta iota zeta delta
    [add_memory save_memory_file datetime_utcnow
     bind ret raise exec getitem setitem get_memories put_memories emit
     next_mem0_call persistent_memories clock_reads mem0_calls trace
     user_log new_entry summary_for remote_event remote_count].

Ltac run_compaction :=
  cbv beta iota zeta delta
    [summarize_old_memories datetime_utcnow
     bind ret raise exec getitem setitem get_memories put_memories emit
     next_mem0_call persistent_memories clock_reads mem0_calls trace
     user_log new_entry summary_for remote_event remote_count].

Section Compaction.

Variable utcnow : nat -> Time.
Variable mem0 : option Mem0Client.

(** Compaction of a user who has a log: the log becomes the summary entry
    followed by the last 20 entries. *)
Lemma summarize_old_memories_run user_id w l :
  persistent_memories w !! user_id = Some l ->
  summarize_old_memories utcnow mem0 user_id w =
  Ok (tt,
      let combined := Py.join " " (text <$> Py.slice_to (-20) l) in
      let summary := summary_for mem0 (mem0_calls w) combined user_id in
      mkWorld
        (<[user_id := {| text := "Summary of past: " +:+ summary;
                         timestamp := utcnow (clock_reads w) |}
                        :: Py.slice_from (-20) l]> (persistent_memories w))
        (S (clock_reads w)) (remote_count mem0 + mem0_calls w)
        (trace w ++ remote_event mem0 (EvMem0Summarize combined user_id))).
Proof.
  destruct w as [m c k tr]. run_compaction. intros Hm. rewrite Hm.
  destruct mem0 as [client|].
  - destruct (mem0_summarize client k _ user_id); rewrite Hm; reflexivity.
  - rewrite Hm, app_nil_r. reflexivity.
Qed.

(** A user without a log makes compaction raise [KeyError]. *)
Lemma summarize_old_memories_absent user_id w :
  persistent_memories w !! user_id = None ->
  summarize_old_memories utcnow mem0 user_id w = Raise (KeyError user_id).
Proof.
  destruct w as [m c k tr]. run_compaction. intros Hm. by rewrite Hm.
Qed.

End Compaction.

Section Append.

Variable utcnow : nat -> Time.
Variable mem0 : option Mem0Client.

(** An append that leaves the log at 50 entries or fewer only extends it. *)
Lemma add_memory_below txt w :
  length (user_log w) < 50 ->
  add_memory utcnow mem0 txt w =
  Ok (tt,
      let l1 := user_log w ++ [new_entry utcnow w txt] in
      let m1 := <[user_name := l1]> (persistent_memories w) in
      mkWorld m1 (S (clock_reads w)) (remote_count mem0 + mem0_calls w)
              ((trace w ++ remote_event mem0 (EvMem0Add txt user_name))
                 ++ [EvSave m1])).
Proof.
  destruct w as [m c k tr]. run_step. intros Hlen.
  destruct mem0 as [client|]; [destruct (mem0_add client k txt user_name)|];
    run_step; (destruct (m !! user_name) as [l|] eqn:Hm; run_step;
    rewrite ?Hm, ?lookup_insert_eq; run_step; rewrite ?lookup_insert_eq; run_step).
  all: simpl in Hlen.
  all: match goal with |- context [Nat.ltb 50 ?n] => destruct (Nat.ltb_spec 50 n) as [Hc|Hc] end.
  all: try (rewrite length_app in Hc; simpl in Hc; lia).
  all: rewrite ?insert_insert_eq, ?app_nil_r; reflexivity.
Qed.

(** An append that takes the log past 50 entries compacts it before the
    state is saved. *)
Lemma add_memory_compacts txt w :
  50 <= length (user_log w) ->
  add_memory utcnow mem0 txt w =
  Ok (tt,
      let l1 := user_log w ++ [new_entry utcnow w txt] in
      let combined := Py.join " " (text <$> Py.slice_to (-20) l1) in
      let n := remote_count mem0 + mem0_calls w in
      let summary := summary_for mem0 n combined user_name in
      let l2 := {| text := "Summary of past: " +:+ summary;
                   timestamp := utcnow (S (clock_reads w)) |}
                  :: Py.slice_from (-20) l1 in
      let m2 := <[user_name := l2]> (persistent_memories w) in
      mkWorld m2 (S (S (clock_reads w))) (remote_count mem0 + n)
              (((trace w ++ remote_event mem0 (EvMem0Add txt user_name))
                  ++ remote_event mem0 (EvMem0Summarize combined user_name))
                 ++ [EvSave m2])).
Proof.
  destruct w as [m c k tr]. run_step. intros Hlen.
  destruct mem0 as [client|]; [destruct (mem0_add client k txt user_name)|];
    run_step; (destruct (m !! user_name) as [l|] eqn:Hm; run_step;
    rewrite ?Hm, ?lookup_insert_eq; run_step; rewrite ?lookup_insert_eq; run_step).
  all: simpl in Hlen; try lia.
  all: match goal with |- context [Nat.ltb 50 ?n] => destruct (Nat.ltb_spec 50 n) as [Hc|Hc] end.
  all: try (rewrite length_app in Hc; simpl in Hc; lia).
  all: erewrite summarize_old_memories_run by (simpl; apply lookup_insert_eq).
  all: run_step; rewrite ?insert_insert_eq, ?app_nil_r; reflexivity.
Qed.


Lemma user_log_insert l m c k tr :
  user_log (mkWorld (<[user_name := l]> m) c k tr) = l.
Proof. unfold user_log. simpl. by rewrite lookup_insert_eq. Qed.

Lemma stamped_cons c t ts :
  stamped utcnow c (t :: ts) = {| text := t; timestamp := utcnow c |} :: stamped utcnow (S c) ts.
Proof.
  unfold stamped. rewrite imap_cons. f_equal.
  - by rewrite Nat.add_0_r.
  - apply imap_ext. intros i x _. simpl. do 2 f_equal. lia.
Qed.

Lemma stamped_lookup c txts i t :
  txts !! i = Some t ->
  stamped utcnow c txts !! i = Some {| text := t; timestamp := utcnow (c + i) |}.
Proof. intros H. unfold stamped. by rewrite list_lookup_imap, H. Qed.

Lemma stamped_texts c txts : text <$> stamped utcnow c txts = txts.
Proof.
  revert c. induction txts as [|t ts IH]; intros c; [done|].
  rewrite stamped_cons. simpl. by rewrite IH.
Qed.

Lemma stamped_length c txts : length (stamped utcnow c txts) = length txts.
Proof. unfold stamped. apply length_imap. Qed.

(** Appends that keep the log at 50 entries or fewer extend it in order. *)
Lemma add_memories_below txts : forall w,
  length (user_log w) + length txts <= 50 ->
  exists w',
    add_memories utcnow mem0 txts w = Ok (tt, w') /\
    user_log w' = user_log w ++ stamped utcnow (clock_reads w) txts /\
    clock_reads w' = clock_reads w + length txts.
Proof.
  induction txts as [|t ts IH]; intros w Hlen.
  - exists w. simpl. rewrite app_nil_r, Nat.add_0_r. done.
  - simpl in Hlen. simpl. unfold bind at 1.
    rewrite add_memory_below by lia. cbv zeta.
    match goal with |- context [add_memories _ _ ts ?w1] => set (w1' := w1) end.
    destruct (IH w1') as (w' & Hrun & Hlog & Hclk).
    { subst w1'. rewrite user_log_insert, length_app. simpl. lia. }
    exists w'. split; [exact Hrun|].
    subst w1'. rewrite user_log_insert in Hlog. simpl in Hclk, Hlog.
    rewrite Hlog, Hclk, stamped_cons, <- app_assoc. split; [done|lia].
Qed.

Lemma add_memories_app txts1 txts2 w :
  add_memories utcnow mem0 (txts1 ++ txts2) w =
  bind (add_memories utcnow mem0 txts1) (fun _ => add_memories utcnow mem0 txts2) w.
Proof.
  revert w. induction txts1 as [|t ts IH]; intros w; [done|].
  simpl. unfold bind.
  destruct (add_memory utcnow mem0 t w) as [[[] w1]|e]; [|done].
  rewrite IH. reflexivity.
Qed.

Lemma add_memories_snoc txts t w w1 :
  add_memories utcnow mem0 txts w = Ok (tt, w1) ->
  add_memories utcnow mem0 (txts ++ [t]) w = add_memory utcnow mem0 t w1.
Proof.
  intros Hrun. rewrite add_memories_app. unfold bind at 1. rewrite Hrun.
  simpl. unfold bind, ret.
  by destruct (add_memory utcnow mem0 t w1) as [[[] ?]|].
Qed.

End Append.

(** ** Runs of appends on an empty log *)

Section Stamped.

Variable utcnow : nat -> Time.

Lemma stamped_app c l1 l2 :
  stamped utcnow c (l1 ++ l2) =
  stamped utcnow c l1 ++ stamped utcnow (c + length l1) l2.
Proof.
  revert c. induction l1 as [|t ts IH]; intros c.
  - simpl. by rewrite Nat.add_0_r.
  - change ((t :: ts) ++ l2) with (t :: (ts ++ l2)).
    rewrite !stamped_cons, IH, <- app_comm_cons. simpl length.
    do 3 f_equal. lia.
Qed.

Lemma stamped_drop k : forall c l,
  drop k (stamped utcnow c l) = stamped utcnow (c + k) (drop k l).
Proof.
  induction k as [|k IH]; intros c l.
  - by rewrite !drop_0, Nat.add_0_r.
  - destruct l as [|t ts]; [done|].
    rewrite stamped_cons. simpl. rewrite IH. f_equal. lia.
Qed.

Lemma stamped_snoc c l t :
  stamped utcnow c l ++ [{| text := t; timestamp := utcnow (c + length l) |}] =
  stamped utcnow c (l ++ [t]).
Proof.
  rewrite stamped_app. f_equal. unfold stamped. simpl. by rewrite Nat.add_0_r.
Qed.

Lemma stamped_non_decreasing c l :
  clock_monotone utcnow -> non_decreasing (timestamp <$> stamped utcnow c l).
Proof.
  intros Hmono i j a b Hij Ha Hb.
  rewrite list_lookup_fmap in Ha, Hb.
  unfold stamped in Ha, Hb. rewrite list_lookup_imap in Ha, Hb.
  destruct (l !! i); [|done]. destruct (l !! j); [|done].
  simpl in Ha, Hb. injection Ha as <-. injection Hb as <-.
  apply Hmono. lia.
Qed.

End Stamped.

Lemma m_texts_length n : length (m_texts n) = n.
Proof. unfold m_texts. by rewrite length_fmap, length_seq. Qed.

Lemma m_texts_lookup n i : i < n -> m_texts n !! i = Some (m_text i).
Proof.
  intros Hi. unfold m_texts. rewrite list_lookup_fmap, lookup_seq_lt by done. done.
Qed.

Lemma m_texts_S n : m_texts (S n) = m_texts n ++ [m_text n].
Proof. unfold m_texts. by rewrite seq_S, fmap_app. Qed.

(** The 51 texts of the scenario, spelled out. *)
Example m_texts_51 :
  m_texts 51 =
  ["m0"; "m1"; "m2"; "m3"; "m4"; "m5"; "m6"; "m7"; "m8"; "m9";
   "m10"; "m11"; "m12"; "m13"; "m14"; "m15"; "m16"; "m17"; "m18"; "m19";
   "m20"; "m21"; "m22"; "m23"; "m24"; "m25"; "m26"; "m27"; "m28"; "m29";
   "m30"; "m31"; "m32"; "m33"; "m34"; "m35"; "m36"; "m37"; "m38"; "m39";
   "m40"; "m41"; "m42"; "m43"; "m44"; "m45"; "m46"; "m47"; "m48"; "m49";
   "m50"].
Proof. vm_compute. reflexivity. Qed.

Lemma exec_Ok {A} (c : M A) w a w' : c w = Ok (a, w') -> exec c w = Ok w'.
Proof. unfold exec. by intros ->. Qed.

(** C1: appending the 51 texts "m0" .. "m50", in that order, to an empty
    log leaves exactly 21 entries: a first entry whose text starts with
    "Summary of past:", then "m31" .. "m50" in that order, each with the
    timestamp it was given when it was appended (clock reads 31 .. 50 of
    the run). *)
Theorem append_51_leaves_summary_and_last_20
    (utcnow : nat -> Time) (mem0 : option Mem0Client) (w : World) :
  user_log w = [] ->
  exists w' first,
    exec (add_memories utcnow mem0 (m_texts 51)) w = Ok w' /\
    length (user_log w') = 21 /\
    user_log w' =
      first :: stamped utcnow (clock_reads w + 31)
                 ["m31"; "m32"; "m33"; "m34"; "m35"; "m36"; "m37"; "m38"; "m39"; "m40";
                  "m41"; "m42"; "m43"; "m44"; "m45"; "m46"; "m47"; "m48"; "m49"; "m50"] /\
    Py.startswith (text first) "Summary of past:" = true /\
    (forall i, i < 51 ->
       exists wi,
         exec (add_memories utcnow mem0 (m_texts (S i))) w = Ok wi /\
         last (user_log wi) =
           Some {| text := m_text i; timestamp := utcnow (clock_reads w + i) |}).
Proof.
  intros Hempty.
  assert (Hrun50 : forall n, n <= 50 -> exists wn,
            add_memories utcnow mem0 (m_texts n) w = Ok (tt, wn) /\
            user_log wn = stamped utcnow (clock_reads w) (m_texts n) /\
            clock_reads wn = clock_reads w + n).
  { intros n Hn.
    destruct (add_memories_below utcnow mem0 (m_texts n) w) as (wn & H1 & H2 & H3).
    - rewrite Hempty, m_texts_length. simpl. lia.
    - exists wn. rewrite Hempty in H2. rewrite m_texts_length in H3. done. }
  destruct (Hrun50 50 ltac:(lia)) as (w50 & Hrun & Hlog & Hclk).
  assert (Hlast : add_memories utcnow mem0 (m_texts 51) w =
                  add_memory utcnow mem0 (m_text 50) w50).
  { rewrite m_texts_S. by apply add_memories_snoc. }
  rewrite add_memory_compacts in Hlast by (rewrite Hlog, stamped_length, m_texts_length; lia).
  cbv zeta in Hlast.
  match type of Hlast with _ = Ok (tt, ?wf) => set (w51 := wf) in * end.
  assert (Hlog51 : tail (user_log w51) =
                   stamped utcnow (clock_reads w + 31) (drop 31 (m_texts 51))).
  { assert (Hsnoc : stamped utcnow (clock_reads w) (m_texts 50)
                      ++ [{| text := m_text 50; timestamp := utcnow (clock_reads w + 50) |}]
                    = stamped utcnow (clock_reads w) (m_texts 51)).
    { rewrite (m_texts_S 50), <- stamped_snoc, m_texts_length. reflexivity. }
    subst w51. rewrite user_log_insert. cbn [tail].
    rewrite slice_from_20. unfold new_entry. rewrite Hlog, Hclk, Hsnoc.
    rewrite stamped_length, m_texts_length.
    change (51 - 20) with 31. apply stamped_drop. }
  assert (Hfull : exists first,
            user_log w51 =
              first :: stamped utcnow (clock_reads w + 31) (drop 31 (m_texts 51)) /\
            Py.startswith (text first) "Summary of past:" = true).
  { subst w51. rewrite user_log_insert in *. cbn [tail] in Hlog51.
    rewrite Hlog51. eexists. split; reflexivity. }
  destruct Hfull as (first & Hfull & Hstart).
  exists w51, first. split; [|split; [|split; [|split]]].
  - unfold exec. rewrite Hlast. reflexivity.
  - rewrite Hfull. cbn [length]. rewrite stamped_length. reflexivity.
  - rewrite Hfull. reflexivity.
  - exact Hstart.
  - intros i Hi. destruct (decide (i = 50)) as [->|Hne].
    + exists w51. split; [unfold exec; rewrite Hlast; reflexivity|].
      rewrite Hfull, last_lookup. cbn [length]. rewrite stamped_length.
      change (pred (S (length (drop 31 (m_texts 51))))) with (S 19).
      rewrite lookup_cons_ne_0 by lia. cbn [pred].
      rewrite (stamped_lookup _ _ _ 19 (m_text 50)) by reflexivity.
      do 3 f_equal. lia.
    + destruct (Hrun50 (S i) ltac:(lia)) as (wi & Hri & Hli & _).
      exists wi. split; [by apply exec_Ok in Hri|].
      rewrite Hli, last_lookup, stamped_length, m_texts_length. simpl.
      apply stamped_lookup, m_texts_lookup. lia.
Qed.

Lemma append_51_leaves_summary_and_last_20_witness :
  user_log init_world = [] /\
  exists w',
    exec (add_memories tick None (m_texts 51)) init_world = Ok w' /\
    length (user_log w') = 21.
Proof.
  split; [reflexivity|].
  destruct (append_51_leaves_summary_and_last_20 tick None init_world eq_refl)
    as (w' & first & Hrun & Hlen & _).
  exists w'. split; assumption.
Defined.

(** C6, as the code has it: any N <= 50 appends to an empty log are read
    back as exactly N entries, with the appended texts in the order of the
    appends, for every clock and client.  The i-th entry carries the wall
    clock read made by the i-th append, so the timestamps are
    non-decreasing whenever the wall clock never goes back from one read
    to the next. *)
Theorem appends_are_read_back_in_order
    (utcnow : nat -> Time) (mem0 : option Mem0Client)
    (txts : list string) (w : World) :
  user_log w = [] ->
  length txts <= 50 ->
  exists w',
    exec (add_memories utcnow mem0 txts) w = Ok w' /\
    length (user_log w') = length txts /\
    text <$> user_log w' = txts /\
    user_log w' = stamped utcnow (clock_reads w) txts /\
    (forall i e, user_log w' !! i = Some e -> timestamp e = utcnow (clock_reads w + i)) /\
    (clock_monotone utcnow -> non_decreasing (timestamp <$> user_log w')).
Proof.
  intros Hempty Hlen.
  destruct (add_memories_below utcnow mem0 txts w) as (w' & Hrun & Hlog & _).
  { rewrite Hempty. simpl. lia. }
  rewrite Hempty in Hlog. simpl in Hlog.
  exists w'. rewrite Hlog. split; [by apply exec_Ok in Hrun|].
  split; [apply stamped_length|].
  split; [apply stamped_texts|].
  split; [reflexivity|].
  split.
  - intros i e Hi. unfold stamped in Hi. rewrite list_lookup_imap in Hi.
    destruct (txts !! i); [|done]. simpl in Hi. by injection Hi as <-.
  - intros Hmono. by apply stamped_non_decreasing.
Qed.

Lemma tick_monotone : clock_monotone tick.
Proof. intros i j Hij. unfold tick. lia. Qed.

Lemma appends_are_read_back_in_order_witness :
  clock_monotone tick /\
  user_log init_world = [] /\
  length ["hello"; ""; "again"] <= 50 /\
  exists w',
    exec (add_memories tick None ["hello"; ""; "again"]) init_world = Ok w' /\
    text <$> user_log w' = ["hello"; ""; "again"] /\
    non_decreasing (timestamp <$> user_log w').
Proof.
  split; [exact tick_monotone|]. split; [reflexivity|]. split; [simpl; lia|].
  destruct (appends_are_read_back_in_order tick None ["hello"; ""; "again"] init_world
              eq_refl ltac:(simpl; lia))
    as (w' & Hrun & _ & Htexts & _ & _ & Hnd).
  exists w'. split; [assumption|]. split; [assumption|]. exact (Hnd tick_monotone).
Defined.

(** The claim C6 itself fails: the timestamps are wall clock reads, and
    when the wall clock is set back between two appends (it reads 5 at the
    first and 3 at the second) the two entries are read back in the order
    of the appends with the timestamps 5 and 3. *)
Lemma appends_under_a_clock_set_back_go_back :
  user_log init_world = [] /\
  exists w',
    exec (add_memories set_back None ["first"; "second"]) init_world = Ok w' /\
    text <$> user_log w' = ["first"; "second"] /\
    timestamp <$> user_log w' = [5; 3]%Z /\
    ~ non_decreasing (timestamp <$> user_log w').
Proof.
  split; [reflexivity|].
  eexists. split; [vm_compute; reflexivity|].
  split; [vm_compute; reflexivity|].
  match goal with
  | |- ?ts = _ /\ _ => assert (Hts : ts = [5; 3]%Z) by (vm_compute; reflexivity)
  end.
  split; [exact Hts|].
  rewrite Hts. intros Hnd.
  specialize (Hnd 0 1 5%Z 3%Z ltac:(lia) eq_refl eq_refl). lia.
Qed.

(** ** Single appends around the high-water mark *)

(** C8: an append that does not take the log past 50 entries only adds the
    new entry at the end: every existing entry stays where it was, the
    clock is read once and nothing but the optional remote add and the
    save leaves the process.  An append to a log of exactly 50 entries (the
    51st of a run) does change the structure: the result has 21 entries and
    no longer starts with the old log. *)
Theorem only_the_51st_append_restructures
    (utcnow : nat -> Time) (mem0 : option Mem0Client)
    (txt : string) (w w50 : World) :
  length (user_log w) < 50 ->
  length (user_log w50) = 50 ->
  (exists w',
     exec (add_memory utcnow mem0 txt) w = Ok w' /\
     user_log w' = user_log w ++ [new_entry utcnow w txt] /\
     (forall i e, user_log w !! i = Some e -> user_log w' !! i = Some e) /\
     length (user_log w') <= 50 /\
     clock_reads w' = S (clock_reads w) /\
     trace w' = (trace w ++ remote_event mem0 (EvMem0Add txt user_name))
                  ++ [EvSave (persistent_memories w')]) /\
  (exists w' first,
     exec (add_memory utcnow mem0 txt) w50 = Ok w' /\
     user_log w' = first :: drop 31 (user_log w50 ++ [new_entry utcnow w50 txt]) /\
     Py.startswith (text first) "Summary of past:" = true /\
     length (user_log w') = 21 /\
     ~ (user_log w50 `prefix_of` user_log w')).
Proof.
  intros Hlt H50. split.
  - eexists. split; [apply exec_Ok with (a := tt), add_memory_below; exact Hlt|].
    cbv zeta. rewrite user_log_insert. simpl.
    split; [reflexivity|]. split; [|split; [|split; reflexivity]].
    + intros i e Hi. by apply lookup_app_l_Some.
    + rewrite length_app. simpl. lia.
  - eexists. eexists. split.
    { apply exec_Ok with (a := tt), add_memory_compacts. lia. }
    cbv zeta. rewrite user_log_insert, slice_from_20, length_app, H50.
    change (50 + length [new_entry utcnow w50 txt] - 20) with 31.
    split; [reflexivity|]. split; [reflexivity|].
    assert (Hlen : length (drop 31 (user_log w50 ++ [new_entry utcnow w50 txt])) = 20).
    { rewrite length_drop, length_app, H50. reflexivity. }
    split; [simpl; by rewrite Hlen|].
    intros Hpre. apply prefix_length in Hpre. simpl in Hpre. lia.
Qed.

Lemma only_the_51st_append_restructures_witness :
  length (user_log init_world) < 50 /\
  length (user_log (world_of_log (stamped tick 0 (m_texts 50)))) = 50 /\
  (exists w',
     exec (add_memory tick None "m0") init_world = Ok w' /\
     user_log w' = [new_entry tick init_world "m0"]) /\
  (exists w',
     exec (add_memory tick None "m50") (world_of_log (stamped tick 0 (m_texts 50))) = Ok w' /\
     length (user_log w') = 21).
Proof.
  assert (H0 : length (user_log init_world) < 50) by (vm_compute; lia).
  assert (H50 : length (user_log (world_of_log (stamped tick 0 (m_texts 50)))) = 50)
    by (vm_compute; reflexivity).
  split; [exact H0|]. split; [exact H50|].
  destruct (only_the_51st_append_restructures tick None "m0" _ _ H0 H50)
    as [(w1 & Hrun1 & Hlog1 & _) _].
  destruct (only_the_51st_append_restructures tick None "m50" _ _ H0 H50)
    as [_ (w2 & first & Hrun2 & _ & _ & Hlen2 & _)].
  split; [exists w1; split; assumption | exists w2; split; assumption].
Defined.

(** C5: every append returns, and the last thing it does is hand the whole
    mapping to the persistence write; in that mapping the user's log has at
    most 50 entries, and exactly 21 when the append took the log past 50,
    since compaction (with its remote call, if a client is configured) has
    already run by then.  Exactly one save is issued per append. *)
Theorem saved_state_never_exceeds_mark
    (utcnow : nat -> Time) (mem0 : option Mem0Client) (txt : string) (w : World) :
  exists w' saved evs,
    exec (add_memory utcnow mem0 txt) w = Ok w' /\
    trace w' = (trace w ++ evs) ++ [EvSave saved] /\
    forallb (fun e => negb (is_save e)) evs = true /\
    saved = persistent_memories w' /\
    length (default [] (saved !! user_name)) <= 50 /\
    (length (user_log w) + 1 <= 50 ->
       saved !! user_name = Some (user_log w ++ [new_entry utcnow w txt])) /\
    (50 < length (user_log w) + 1 ->
       length (default [] (saved !! user_name)) = 21 /\
       evs = remote_event mem0 (EvMem0Add txt user_name) ++
             remote_event mem0
               (EvMem0Summarize
                  (Py.join " " (text <$> Py.slice_to (-20)
                                           (user_log w ++ [new_entry utcnow w txt])))
                  user_name)).
Proof.
  destruct (le_lt_dec 50 (length (user_log w))) as [Hge|Hlt].
  - eexists. eexists. eexists. split.
    { apply exec_Ok with (a := tt), add_memory_compacts. exact Hge. }
    cbv zeta. cbn [trace persistent_memories].
    split; [rewrite <- (app_assoc (trace w)); reflexivity|].
    split; [by destruct mem0|]. split; [reflexivity|].
    rewrite lookup_insert_eq. cbn [default from_option id length].
    assert (Hlen : length (Py.slice_from (-20) (user_log w ++ [new_entry utcnow w txt])) = 20).
    { rewrite slice_from_20, length_drop, length_app. simpl. lia. }
    rewrite Hlen. split; [lia|]. split; [lia|]. intros _. split; reflexivity.
  - eexists. eexists. eexists. split.
    { apply exec_Ok with (a := tt), add_memory_below. exact Hlt. }
    cbv zeta. cbn [trace persistent_memories].
    split; [reflexivity|].
    split; [by destruct mem0|]. split; [reflexivity|].
    rewrite lookup_insert_eq. cbn [default from_option id]. rewrite length_app. simpl.
    split; [lia|]. split; [reflexivity|]. intros ?. lia.
Qed.

(** ** Timestamps along a log *)

Lemma non_decreasing_nil : non_decreasing [].
Proof. intros i j a b _ Ha. by rewrite lookup_nil in Ha. Qed.

Lemma non_decreasing_snoc ts t :
  non_decreasing ts -> Forall (fun a => (a <= t)%Z) ts -> non_decreasing (ts ++ [t]).
Proof.
  intros Hnd Hall i j a b Hij Ha Hb.
  destruct (decide (j < length ts)) as [Hj|Hj].
  - rewrite lookup_app_l in Ha by lia. rewrite lookup_app_l in Hb by lia. eauto.
  - pose proof (lookup_lt_Some _ _ _ Hb) as Hjlt.
    rewrite length_app in Hjlt. simpl in Hjlt.
    assert (j = length ts) as -> by lia.
    rewrite list_lookup_middle in Hb by done. injection Hb as <-.
    destruct (decide (i < length ts)) as [Hi|Hi].
    + rewrite lookup_app_l in Ha by lia.
      rewrite Forall_lookup in Hall. eauto.
    + assert (i = length ts) as -> by lia.
      rewrite list_lookup_middle in Ha by done. injection Ha as <-. lia.
Qed.

Lemma non_decreasing_drop k ts : non_decreasing ts -> non_decreasing (drop k ts).
Proof.
  intros Hnd i j a b Hij Ha Hb. rewrite lookup_drop in Ha, Hb.
  apply (Hnd (k + i) (k + j)); [lia|done..].
Qed.

Section Invariant.

Variable utcnow : nat -> Time.
Variable mem0 : option Mem0Client.
Hypothesis clock_ok : clock_monotone utcnow.

Lemma log_invariant_init : log_invariant utcnow init_world.
Proof. split; [apply non_decreasing_nil | constructor]. Qed.

(** Behind the first entry of an extended log the stamps still never go
    back, the new entry carrying the latest clock read. *)
Lemma tail_snoc_non_decreasing w txt :
  log_invariant utcnow w ->
  non_decreasing (timestamp <$> tail (user_log w ++ [new_entry utcnow w txt])).
Proof.
  intros [Hnd Hall]. destruct (user_log w) as [|x l]; [apply non_decreasing_nil|].
  cbn [app tail] in *. rewrite fmap_app. apply non_decreasing_snoc; [done|].
  apply Forall_fmap. apply Forall_cons in Hall as [_ Hall].
  eapply Forall_impl; [exact Hall|]. intros e (i & Hi & He). simpl.
  rewrite He. apply clock_ok. lia.
Qed.

Lemma stamps_of_extended_log w txt :
  log_invariant utcnow w ->
  Forall (fun e => exists i, i < S (clock_reads w) /\ timestamp e = utcnow i)
         (user_log w ++ [new_entry utcnow w txt]).
Proof.
  intros [_ Hall]. apply Forall_app. split.
  - eapply Forall_impl; [exact Hall|]. intros e (i & Hi & ->). exists i. split; [lia|done].
  - constructor; [|constructor]. exists (clock_reads w). split; [lia|done].
Qed.

Lemma log_invariant_step w txt w' :
  log_invariant utcnow w ->
  exec (add_memory utcnow mem0 txt) w = Ok w' ->
  log_invariant utcnow w'.
Proof.
  intros Hinv Hrun.
  pose proof (tail_snoc_non_decreasing w txt Hinv) as Htail.
  pose proof (stamps_of_extended_log w txt Hinv) as Hstamps.
  destruct (le_lt_dec 50 (length (user_log w))) as [Hge|Hlt].
  - rewrite (exec_Ok _ _ _ _ (add_memory_compacts utcnow mem0 txt w Hge)) in Hrun.
    injection Hrun as <-. unfold log_invariant. rewrite user_log_insert.
    cbn [tail clock_reads]. rewrite slice_from_20. split.
    + destruct (user_log w) as [|x l]; [simpl in Hge; lia|].
      cbn [app tail length] in *.
      replace (S (length (l ++ [new_entry utcnow w txt])) - 20)
        with (S (length (l ++ [new_entry utcnow w txt]) - 20))
        by (rewrite length_app; simpl; lia).
      cbn [drop]. rewrite fmap_drop. by apply non_decreasing_drop.
    + constructor; [exists (S (clock_reads w)); split; [lia|done]|].
      apply Forall_drop. eapply Forall_impl; [exact Hstamps|].
      intros e (i & Hi & ->). exists i. split; [lia|done].
  - rewrite (exec_Ok _ _ _ _ (add_memory_below utcnow mem0 txt w Hlt)) in Hrun.
    injection Hrun as <-. unfold log_invariant. rewrite user_log_insert.
    cbn [clock_reads]. done.
Qed.

Lemma reachable_log_invariant w : reachable utcnow mem0 w -> log_invariant utcnow w.
Proof.
  induction 1 as [|w txt w' _ IH Hrun]; [apply log_invariant_init|].
  by eapply log_invariant_step.
Qed.

End Invariant.

Lemma reachable_add_memories utcnow mem0 txts : forall w w',
  reachable utcnow mem0 w ->
  exec (add_memories utcnow mem0 txts) w = Ok w' ->
  reachable utcnow mem0 w'.
Proof.
  induction txts as [|t ts IH]; intros w w' Hw Hrun.
  - injection Hrun as <-. done.
  - unfold exec in Hrun. simpl in Hrun. unfold bind in Hrun.
    destruct (add_memory utcnow mem0 t w) as [[[] w1]|e] eqn:Hstep; [|done].
    apply (IH w1); [|exact Hrun].
    eapply reach_add; [exact Hw|]. unfold exec. by rewrite Hstep.
Qed.

Lemma world_after_reachable mem0 n :
  exec (add_memories tick mem0 (m_texts n)) init_world = Ok (world_after mem0 n) ->
  reachable tick mem0 (world_after mem0 n).
Proof. apply reachable_add_memories. constructor. Qed.

(** C3, as the code has it: under a clock that never goes back, in every
    reachable log the timestamps of the entries behind the first one are
    non-decreasing (ties permitted); and when an append compacts a
    reachable log, the summary entry at index 0 is stamped with the clock
    read made at compaction, which is not earlier than the timestamp of any
    of the 20 retained entries behind it. *)
Theorem timestamps_behind_first_entry_never_go_back
    (utcnow : nat -> Time) (mem0 : option Mem0Client) (w wc : World) (txt : string) :
  clock_monotone utcnow ->
  reachable utcnow mem0 w ->
  reachable utcnow mem0 wc ->
  50 <= length (user_log wc) ->
  non_decreasing (timestamp <$> tail (user_log w)) /\
  exists w' summary_entry recent,
    exec (add_memory utcnow mem0 txt) wc = Ok w' /\
    user_log w' = summary_entry :: recent /\
    length recent = 20 /\
    timestamp summary_entry = utcnow (S (clock_reads wc)) /\
    Forall (fun e => (timestamp e <= timestamp summary_entry)%Z) recent /\
    non_decreasing (timestamp <$> recent).
Proof.
  intros Hmono Hw Hwc Hge. split.
  { by apply (reachable_log_invariant utcnow mem0 Hmono w). }
  pose proof (reachable_log_invariant utcnow mem0 Hmono wc Hwc) as Hinv.
  pose proof (stamps_of_extended_log utcnow wc txt Hinv) as Hstamps.
  assert (Hstep : exec (add_memory utcnow mem0 txt) wc = Ok _)
    by (apply exec_Ok with (a := tt), add_memory_compacts; exact Hge).
  pose proof (reachable_log_invariant utcnow mem0 Hmono _
                (reach_add utcnow mem0 wc txt _ Hwc Hstep)) as [Hnd' _].
  cbv zeta in Hstep, Hnd'. rewrite user_log_insert in Hnd'. cbn [tail] in Hnd'.
  eexists. eexists. eexists. split; [exact Hstep|].
  rewrite user_log_insert. split; [reflexivity|].
  split; [rewrite slice_from_20, length_drop, length_app; simpl; lia|].
  split; [reflexivity|]. split; [|exact Hnd'].
  rewrite slice_from_20. apply Forall_drop.
  eapply Forall_impl; [exact Hstamps|].
  intros e (i & Hi & He). simpl. rewrite He. apply Hmono. lia.
Qed.

Lemma timestamps_behind_first_entry_never_go_back_witness :
  clock_monotone tick /\
  reachable tick None (world_after None 51) /\
  reachable tick None (world_after None 50) /\
  50 <= length (user_log (world_after None 50)) /\
  non_decreasing (timestamp <$> tail (user_log (world_after None 51))) /\
  exists w' summary_entry recent,
    exec (add_memory tick None "m50") (world_after None 50) = Ok w' /\
    user_log w' = summary_entry :: recent /\
    Forall (fun e => (timestamp e <= timestamp summary_entry)%Z) recent.
Proof.
  assert (H51 : reachable tick None (world_after None 51))
    by (apply world_after_reachable; vm_compute; reflexivity).
  assert (H50 : reachable tick None (world_after None 50))
    by (apply world_after_reachable; vm_compute; reflexivity).
  assert (Hlen : 50 <= length (user_log (world_after None 50)))
    by (vm_compute; lia).
  destruct (timestamps_behind_first_entry_never_go_back tick None
              (world_after None 51) (world_after None 50) "m50" tick_monotone H51 H50 Hlen)
    as (Hnd & w' & s & recent & Hrun & Hlog & _ & _ & Hall & _).
  repeat (split; [assumption|]).
  split; [exact tick_monotone|]. repeat (split; [assumption|]).
  exists w', s, recent. repeat (split; [assumption|]). assumption.
Defined.

(** The claim C3 itself fails: after the 51 appends of the scenario, on a
    clock that advances at every read, the summary entry is stamped 51 and
    is followed by the entries stamped 31 .. 50. *)
Lemma compacted_log_timestamps_go_back :
  clock_monotone tick /\
  reachable tick None (world_after None 51) /\
  timestamp <$> user_log (world_after None 51) =
    [51; 31; 32; 33; 34; 35; 36; 37; 38; 39; 40;
     41; 42; 43; 44; 45; 46; 47; 48; 49; 50]%Z /\
  ~ non_decreasing (timestamp <$> user_log (world_after None 51)).
Proof.
  split; [exact tick_monotone|].
  split; [apply world_after_reachable; vm_compute; reflexivity|].
  assert (Hts : timestamp <$> user_log (world_after None 51) =
                [51; 31; 32; 33; 34; 35; 36; 37; 38; 39; 40;
                 41; 42; 43; 44; 45; 46; 47; 48; 49; 50]%Z)
    by (vm_compute; reflexivity).
  split; [exact Hts|].
  rewrite Hts. intros Hnd.
  specialize (Hnd 0 1 51%Z 31%Z ltac:(lia) eq_refl eq_refl). lia.
Qed.

(** ** Substrings *)

Lemma string_app_cons (x : ascii) (a b : string) :
  String x a +:+ b = String x (a +:+ b).
Proof. reflexivity. Qed.

Lemma startswith_app p s : Py.startswith (p +:+ s) p = true.
Proof.
  induction p as [|a p IH]; [done|].
  rewrite string_app_cons. simpl. by rewrite Ascii.eqb_refl.
Qed.

Lemma startswith_spec s p :
  Py.startswith s p = true <-> exists post, s = p +:+ post.
Proof.
  split.
  - revert s. induction p as [|a p IH]; intros s H; [by exists s|].
    destruct s as [|b s]; [done|]. simpl in H.
    destruct (Ascii.eqb_spec a b) as [->|]; [|done].
    destruct (IH s H) as [post ->]. by exists post.
  - intros [post ->]. apply startswith_app.
Qed.

Lemma string_app_assoc (a b c : string) : (a +:+ b) +:+ c = a +:+ (b +:+ c).
Proof.
  induction a as [|x a IH]; [done|]. rewrite !string_app_cons. f_equal. exact IH.
Qed.

Lemma string_app_nil_r (a : string) : a +:+ "" = a.
Proof.
  induction a as [|x a IH]; [done|]. rewrite string_app_cons. f_equal. exact IH.
Qed.

Lemma contains_prefix needle hay :
  Py.startswith hay needle = true -> Py.contains needle hay = true.
Proof. intros H. destruct hay; simpl; by rewrite H. Qed.

(** [Py.contains] decides whether the needle occurs in the haystack. *)
Lemma contains_spec needle hay :
  Py.contains needle hay = true <-> exists pre post, hay = pre +:+ needle +:+ post.
Proof.
  split.
  - induction hay as [|c hay IH]; simpl; intros H.
    + apply orb_true_iff in H as [H|H]; [|done].
      apply startswith_spec in H as [post ->]. by exists "", post.
    + apply orb_true_iff in H as [H|H].
      * apply startswith_spec in H as [post ->]. by exists "", post.
      * destruct (IH H) as (pre & post & ->). by exists (String c pre), post.
  - intros (pre & post & ->). induction pre as [|c pre IH].
    + change ("" +:+ needle +:+ post) with (needle +:+ post).
      apply contains_prefix, startswith_app.
    + rewrite string_app_cons. simpl. rewrite IH. apply orb_true_r.
Qed.

Lemma contains_app_l needle s post :
  Py.contains needle s = true -> Py.contains needle (s +:+ post) = true.
Proof.
  rewrite !contains_spec. intros (pre & post' & ->).
  exists pre, (post' +:+ post). by rewrite !string_app_assoc.
Qed.

Lemma contains_app_r needle pre s :
  Py.contains needle s = true -> Py.contains needle (pre +:+ s) = true.
Proof.
  rewrite !contains_spec. intros (pre' & post & ->).
  exists (pre +:+ pre'), post. by rewrite !string_app_assoc.
Qed.

Lemma contains_refl s : Py.contains s s = true.
Proof. apply contains_spec. exists "", "". simpl. by rewrite string_app_nil_r. Qed.

(** Every part of a joined string occurs in it. *)
Lemma contains_join sep parts x :
  x ∈ parts -> Py.contains x (Py.join sep parts) = true.
Proof.
  unfold Py.join. induction parts as [|y ys IH]; intros Hin.
  - by apply elem_of_nil in Hin.
  - apply elem_of_cons in Hin as [->|Hin].
    + destruct ys as [|z zs]; simpl; [apply contains_refl|].
      apply contains_app_l, contains_refl.
    + destruct ys as [|z zs]; [by apply elem_of_nil in Hin|].
      change (String.concat sep (y :: z :: zs))
        with (y +:+ sep +:+ String.concat sep (z :: zs)).
      by apply contains_app_r, contains_app_r, IH.
Qed.

(** ** Compaction *)

(** C10, as the code has it: whenever an append takes the log past 50
    entries, whatever the entries are, compaction splits the whole current
    log into [old] = all entries but the last 20 and [recent] = the last
    20.  The first entry of the log, which is the summary of the previous
    compaction when there was one, lies in [old]; the text of every entry
    of [old] occurs in the space-joined text, and that joined text is what
    the summarizer is called with when one is configured; the new log is
    the new summary entry followed by [recent].  The text of the new
    summary is what the summarizer returns for the joined text; it is one
    fixed text when no summarizer is configured and another fixed text
    when the summarizer's call raises, so that nothing of [old], an earlier
    summary included, is kept then. *)
Theorem compaction_folds_all_but_last_20
    (utcnow : nat -> Time) (mem0 : option Mem0Client)
    (txt : string) (w : World) (old recent : list MemoryEntry) :
  user_log w ++ [new_entry utcnow w txt] = old ++ recent ->
  length recent = 20 ->
  50 < length (old ++ recent) ->
  let combined_text := Py.join " " (text <$> old) in
  let summary := summary_for mem0 (remote_count mem0 + mem0_calls w) combined_text user_name in
  exists w',
    exec (add_memory utcnow mem0 txt) w = Ok w' /\
    user_log w' = {| text := "Summary of past: " +:+ summary;
                     timestamp := utcnow (S (clock_reads w)) |} :: recent /\
    trace w' = ((trace w ++ remote_event mem0 (EvMem0Add txt user_name))
                  ++ remote_event mem0 (EvMem0Summarize combined_text user_name))
                 ++ [EvSave (persistent_memories w')] /\
    (forall e, e ∈ old -> Py.contains (text e) combined_text = true) /\
    (forall first, head (user_log w) = Some first ->
       first ∈ old /\ Py.contains (text first) combined_text = true) /\
    (mem0 = None -> summary = "Past conversations and interactions") /\
    (forall client, mem0 = Some client ->
       summary =
         match mem0_summarize client (S (mem0_calls w)) combined_text user_name with
         | Returns s => s
         | Raises => " (failed to summarize older memories) "
         end).
Proof.
  intros Hsplit Hrecent Hlen combined_text summary.
  assert (Hge : 50 <= length (user_log w)).
  { rewrite <- Hsplit, length_app in Hlen. simpl in Hlen. lia. }
  assert (Hold : Py.slice_to (-20) (user_log w ++ [new_entry utcnow w txt]) = old).
  { rewrite Hsplit, slice_to_20. by apply take_app_prefix. }
  assert (Hrec : Py.slice_from (-20) (user_log w ++ [new_entry utcnow w txt]) = recent).
  { rewrite Hsplit, slice_from_20. by apply drop_app_suffix. }
  assert (Hin : forall e, e ∈ old -> Py.contains (text e) combined_text = true).
  { intros e He. apply contains_join. by apply list_elem_of_fmap_2. }
  eexists. split.
  { apply exec_Ok with (a := tt), add_memory_compacts. exact Hge. }
  cbv zeta. rewrite user_log_insert, Hold, Hrec. cbn [trace persistent_memories].
  split; [reflexivity|]. split; [reflexivity|]. split; [exact Hin|].
  split; [|split; [by intros ->|by intros client ->]].
  intros first Hfirst.
  assert (first ∈ old) as Hfo; [|split; [exact Hfo | by apply Hin]].
  destruct (user_log w) as [|x l]; [done|]. injection Hfirst as ->.
  destruct old as [|o old'].
  - rewrite length_app, Hrecent in Hlen. simpl in Hlen. lia.
  - injection Hsplit as -> _. apply elem_of_cons. by left.
Qed.

Lemma compaction_folds_all_but_last_20_witness :
  let w := world_after (Some digest_client) 80 in
  let old := take 31 (user_log w) in
  let recent := drop 31 (user_log w) ++ [new_entry tick w "next"] in
  user_log w ++ [new_entry tick w "next"] = old ++ recent /\
  length recent = 20 /\
  50 < length (old ++ recent) /\
  head (user_log w) = Some {| text := "Summary of past: digest"; timestamp := 51 |} /\
  exists w',
    exec (add_memory tick (Some digest_client) "next") w = Ok w' /\
    forall e, e ∈ old -> Py.contains (text e) (Py.join " " (text <$> old)) = true.
Proof.
  intros w old recent.
  assert (H1 : user_log w ++ [new_entry tick w "next"] = old ++ recent)
    by (vm_compute; reflexivity).
  assert (H2 : length recent = 20) by (vm_compute; reflexivity).
  assert (H3 : 50 < length (old ++ recent)) by (vm_compute; lia).
  assert (H4 : head (user_log w) =
               Some {| text := "Summary of past: digest"; timestamp := 51 |})
    by (vm_compute; reflexivity).
  destruct (compaction_folds_all_but_last_20 tick (Some digest_client) "next" w
              old recent H1 H2 H3) as (w' & Hrun & _ & _ & Hin & _).
  repeat (split; [assumption|]).
  exists w'. split; assumption.
Defined.

(** The claim C10 itself fails: an earlier summary is not always folded
    into the new one.  After 80 appends with a summarizer that answered
    the first compaction, the log holds 50 entries, the first of which is
    the summary "Summary of past: digest".  The next append compacts; the
    summarizer is handed a text in which that summary occurs, but its call
    raises, and the new log is the fixed text followed by the last 20
    entries: the earlier digest occurs in none of them. *)
Lemma failed_summarizer_drops_the_earlier_summary :
  let mem0 := Some flaky_client in
  let w := world_after mem0 80 in
  reachable tick mem0 w /\
  length (user_log w) = 50 /\
  head (user_log w) = Some {| text := "Summary of past: digest"; timestamp := 51 |} /\
  exists w' combined_text,
    exec (add_memory tick mem0 "next") w = Ok w' /\
    trace w' = trace w ++ [EvMem0Add "next" user_name;
                           EvMem0Summarize combined_text user_name;
                           EvSave (persistent_memories w')] /\
    combined_text = Py.join " " (text <$> take 31 (user_log w)) /\
    Py.contains "Summary of past: digest" combined_text = true /\
    mem0_summarize flaky_client (S (mem0_calls w)) combined_text user_name = Raises /\
    length (user_log w') = 21 /\
    head (user_log w') =
      Some {| text := "Summary of past:  (failed to summarize older memories) ";
              timestamp := 82 |} /\
    Forall (fun e => Py.contains "digest" (text e) = false) (user_log w').
Proof.
  intros mem0 w.
  split; [apply world_after_reachable; vm_compute; reflexivity|].
  evar (l : list MemoryEntry).
  assert (Hw : user_log w = l /\ mem0_calls w = 81 /\ clock_reads w = 81).
  { subst l. vm_compute. repeat split; reflexivity. }
  destruct Hw as (Hlog & Hcalls & Hclock). subst l.
  split; [rewrite Hlog; reflexivity|].
  split; [rewrite Hlog; reflexivity|].
  eexists. eexists. split.
  { apply exec_Ok with (a := tt), add_memory_compacts. rewrite Hlog. simpl. lia. }
  cbv zeta. rewrite user_log_insert.
  unfold new_entry, summary_for. subst mem0.
  cbn [trace persistent_memories remote_event remote_count Nat.add].
  rewrite Hlog, Hcalls, Hclock.
  split; [rewrite <- !app_assoc; reflexivity|].
  split; [vm_compute; reflexivity|].
  split; [vm_compute; reflexivity|].
  split; [vm_compute; reflexivity|].
  split; [vm_compute; reflexivity|].
  split; [vm_compute; reflexivity|].
  vm_compute. repeat constructor.
Qed.

(** C2, as the code has it: compaction of a user who has a log never
    raises, whether no summarizer is configured or the summarizer's call
    raises.  Without a summarizer the summary entry's text is "Summary of
    past: " followed by "Past conversations and interactions"; when the
    call raises it is "Summary of past: " followed by the other fixed text
    " (failed to summarize older memories) ".  In both cases the entry is
    stamped at compaction time and followed by the last 20 entries. *)
Theorem compaction_falls_back_without_raising
    (utcnow : nat -> Time) (mem0 : option Mem0Client)
    (user_id : string) (w : World) (log : list MemoryEntry) :
  persistent_memories w !! user_id = Some log ->
  (mem0 = None \/
   exists client,
     mem0 = Some client /\
     mem0_summarize client (mem0_calls w)
       (Py.join " " (text <$> Py.slice_to (-20) log)) user_id = Raises) ->
  exists w',
    exec (summarize_old_memories utcnow mem0 user_id) w = Ok w' /\
    persistent_memories w' !! user_id =
      Some ({| text := "Summary of past: " +:+
                       match mem0 with
                       | None => "Past conversations and interactions"
                       | Some _ => " (failed to summarize older memories) "
                       end;
               timestamp := utcnow (clock_reads w) |}
              :: Py.slice_from (-20) log).
Proof.
  intros Hlog Hdown. eexists. split.
  { apply exec_Ok with (a := tt), summarize_old_memories_run. exact Hlog. }
  cbv zeta. cbn [persistent_memories]. rewrite lookup_insert_eq.
  destruct Hdown as [->|(client & -> & Hraise)]; [reflexivity|].
  unfold summary_for. rewrite Hraise. reflexivity.
Qed.

Lemma compaction_falls_back_without_raising_witness :
  let w := world_of_log (stamped tick 0 (m_texts 51)) in
  persistent_memories w !! user_name = Some (stamped tick 0 (m_texts 51)) /\
  (exists client,
     Some failing_client = Some client /\
     mem0_summarize client (mem0_calls w)
       (Py.join " " (text <$> Py.slice_to (-20) (stamped tick 0 (m_texts 51))))
       user_name = Raises) /\
  exists w',
    exec (summarize_old_memories tick (Some failing_client) user_name) w = Ok w' /\
    text <$> head (user_log w') =
      Some "Summary of past:  (failed to summarize older memories) ".
Proof.
  intros w.
  assert (H1 : persistent_memories w !! user_name = Some (stamped tick 0 (m_texts 51)))
    by (vm_compute; reflexivity).
  assert (H2 : exists client,
             Some failing_client = Some client /\
             mem0_summarize client (mem0_calls w)
               (Py.join " " (text <$> Py.slice_to (-20) (stamped tick 0 (m_texts 51))))
               user_name = Raises)
    by (exists failing_client; split; reflexivity).
  destruct (compaction_falls_back_without_raising tick (Some failing_client)
              user_name w _ H1 (or_intror H2)) as (w' & Hrun & Hhead).
  split; [exact H1|]. split; [exact H2|].
  exists w'. split; [exact Hrun|].
  unfold user_log. rewrite Hhead. reflexivity.
Defined.

(** The claim C2 itself fails when the summarizer's call raises: compaction
    completes, but the summary entry's text is "Summary of past:  (failed
    to summarize older memories) ", in which "Past conversations and
    interactions" does not occur. *)
Lemma failed_call_uses_another_fallback :
  let w := world_of_log (stamped tick 0 (m_texts 51)) in
  mem0_summarize failing_client (mem0_calls w)
    (Py.join " " (text <$> Py.slice_to (-20) (user_log w))) user_name = Raises /\
  exists w' first rest,
    exec (summarize_old_memories tick (Some failing_client) user_name) w = Ok w' /\
    user_log w' = first :: rest /\
    text first = "Summary of past:  (failed to summarize older memories) " /\
    ~ (exists pre post,
         text first = pre +:+ "Past conversations and interactions" +:+ post).
Proof.
  intros w. split; [reflexivity|].
  eexists. eexists. eexists.
  split; [vm_compute; reflexivity|]. split; [reflexivity|]. split; [reflexivity|].
  intros Hcontains. apply contains_spec in Hcontains. vm_compute in Hcontains. done.
Qed.

(** ** The context read path *)

Lemma split_lines_from_length cur s :
  length (Py.split_lines_from cur s) = length (Py.split_lines_from "" s).
Proof.
  revert cur. induction s as [|c s IH]; intros cur; [done|].
  simpl. destruct (Ascii.eqb c Py.LF); simpl; [done|].
  rewrite IH. symmetry. apply IH.
Qed.

Lemma line_count_cons c s :
  Py.line_count (String c s) =
  if Ascii.eqb c Py.LF then S (Py.line_count s) else Py.line_count s.
Proof.
  unfold Py.line_count, Py.split_lines. simpl.
  destruct (Ascii.eqb c Py.LF); [done|]. apply split_lines_from_length.
Qed.

Lemma line_count_pos s : 1 <= Py.line_count s.
Proof.
  induction s as [|c s IH]; [done|]. rewrite line_count_cons.
  destruct (Ascii.eqb c Py.LF); lia.
Qed.

Lemma line_count_app a b :
  Py.line_count (a +:+ b) + 1 = Py.line_count a + Py.line_count b.
Proof.
  induction a as [|c a IH].
  - change ("" +:+ b) with b. change (Py.line_count "") with 1. lia.
  - rewrite string_app_cons, !line_count_cons.
    destruct (Ascii.eqb c Py.LF); lia.
Qed.

(** Joining with newlines adds up the lines of the parts. *)
Lemma line_count_join parts :
  parts <> [] ->
  Py.line_count (Py.join Py.newline parts) = sum_list (Py.line_count <$> parts).
Proof.
  unfold Py.join. induction parts as [|x xs IH]; [done|]. intros _.
  destruct xs as [|y ys]; [simpl; lia|].
  change (String.concat Py.newline (x :: y :: ys))
    with (x +:+ Py.newline +:+ String.concat Py.newline (y :: ys)).
  change (sum_list (Py.line_count <$> x :: y :: ys))
    with (Py.line_count x + sum_list (Py.line_count <$> y :: ys)).
  rewrite <- IH by done.
  set (rest := String.concat Py.newline (y :: ys)).
  pose proof (line_count_app x (Py.newline +:+ rest)) as H.
  assert (Hnl : Py.line_count (Py.newline +:+ rest) = S (Py.line_count rest)).
  { change (Py.newline +:+ rest) with (String Py.LF rest).
    rewrite line_count_cons. reflexivity. }
  lia.
Qed.

Lemma line_count_marker m : Py.line_count ("- " +:+ m) = Py.line_count m.
Proof. rewrite !string_app_cons, !line_count_cons. reflexivity. Qed.

(** The context has as many lines as the entries it shows have together. *)
Lemma summary_line_count w :
  Py.slice_from (-5) (user_log w) <> [] ->
  Py.line_count (get_memory_summary w) =
  sum_list ((fun e => Py.line_count (text e)) <$> Py.slice_from (-5) (user_log w)).
Proof.
  unfold get_memory_summary. fold (user_log w). intros Hne.
  destruct (Py.slice_from (-5) (user_log w)) as [|e es] eqn:Hshown; [done|].
  cbn [fmap list_fmap]. rewrite line_count_join by done.
  cbn [fmap list_fmap sum_list sum_list_with]. rewrite line_count_marker. f_equal.
  clear. induction es as [|x xs IH]; [done|].
  cbn [fmap list_fmap sum_list sum_list_with] in *. by rewrite line_count_marker, IH.
Qed.

Lemma sum_list_ones {A} (f : A -> nat) (l : list A) :
  (forall x, x ∈ l -> f x = 1) -> sum_list (f <$> l) = length l.
Proof.
  induction l as [|x xs IH]; intros H; [done|].
  cbn [fmap list_fmap sum_list sum_list_with length].
  rewrite (H x) by (apply elem_of_cons; by left).
  fold (fmap f xs). rewrite IH; [done|].
  intros y Hy. apply H, elem_of_cons. by right.
Qed.

(** C4, as the code has it: the context shows at most 5 entries, one
    "- " item per entry joined by line feeds; it has at most 5 lines
    whenever the text of each entry shown is a single line (and in general
    as many lines as those texts have together). *)
Theorem context_has_at_most_5_lines_for_single_line_texts (w : World) :
  (forall e, e ∈ Py.slice_from (-5) (user_log w) -> Py.line_count (text e) = 1) ->
  length (Py.slice_from (-5) (user_log w)) <= 5 /\
  Py.line_count (get_memory_summary w) = Nat.max 1 (length (Py.slice_from (-5) (user_log w))) /\
  Py.line_count (get_memory_summary w) <= 5.
Proof.
  intros Hsingle.
  assert (Hlen : length (Py.slice_from (-5) (user_log w)) <= 5).
  { rewrite slice_from_5, length_drop. lia. }
  split; [exact Hlen|].
  destruct (Py.slice_from (-5) (user_log w)) as [|e es] eqn:Hshown.
  - unfold get_memory_summary. fold (user_log w). rewrite Hshown.
    split; [reflexivity | vm_compute; lia].
  - rewrite summary_line_count by (rewrite Hshown; done).
    rewrite Hshown, sum_list_ones by exact Hsingle.
    split; [cbn [length]; lia | exact Hlen].
Qed.

Lemma context_has_at_most_5_lines_for_single_line_texts_witness :
  (forall e, e ∈ Py.slice_from (-5) (user_log (world_after None 51)) ->
             Py.line_count (text e) = 1) /\
  Py.line_count (get_memory_summary (world_after None 51)) <= 5.
Proof.
  assert (H : forall e, e ∈ Py.slice_from (-5) (user_log (world_after None 51)) ->
                        Py.line_count (text e) = 1).
  { intros e He. vm_compute in He.
    repeat (apply elem_of_cons in He as [->|He]; [reflexivity|]).
    by apply elem_of_nil in He. }
  split; [exact H|].
  apply (context_has_at_most_5_lines_for_single_line_texts (world_after None 51) H).
Defined.

(** The claim C4 itself fails for a text that holds line feeds: one entry
    of six lines gives a context of six lines. *)
Lemma multi_line_text_gives_more_than_5_lines :
  exists w,
    exec (add_memory tick None six_lines) init_world = Ok w /\
    length (user_log w) = 1 /\
    Py.line_count (get_memory_summary w) = 6 /\
    ~ Py.line_count (get_memory_summary w) <= 5.
Proof.
  eexists. split; [vm_compute; reflexivity|].
  split; [reflexivity|]. split; [vm_compute; reflexivity|].
  vm_compute. lia.
Qed.

(** C9: for a user without a log, or with an empty one, the summary is the
    fixed sentinel "No past memories yet.", which is not the empty string;
    for a log that ends with the entries [recent] (the last five, or the
    whole log when it holds at most five), the summary is the texts of
    [recent] in log order, oldest first and newest last, each prefixed
    with "- " and separated by line feeds.  The function is total: it
    always returns a string. *)
Theorem summary_is_sentinel_or_last_five
    (w0 w : World) (older recent : list MemoryEntry) :
  (persistent_memories w0 !! user_name = None \/
   persistent_memories w0 !! user_name = Some []) ->
  persistent_memories w !! user_name = Some (older ++ recent) ->
  recent <> [] ->
  (length recent = 5 \/ (older = [] /\ length recent <= 5)) ->
  get_memory_summary w0 = "No past memories yet." /\
  get_memory_summary w0 <> "" /\
  get_memory_summary w =
    Py.join Py.newline ((fun e => "- " +:+ text e) <$> recent) /\
  get_memory_summary w <> "".
Proof.
  intros Hempty Hlog Hne Hlast.
  assert (H0 : get_memory_summary w0 = "No past memories yet.").
  { unfold get_memory_summary. by destruct Hempty as [-> | ->]. }
  assert (Hshown : Py.slice_from (-5) (older ++ recent) = recent).
  { rewrite slice_from_5. destruct Hlast as [H5|[-> Hle]].
    - by apply drop_app_suffix.
    - simpl. replace (length recent - 5) with 0 by lia. done. }
  assert (H1 : get_memory_summary w =
               Py.join Py.newline ((fun e => "- " +:+ text e) <$> recent)).
  { unfold get_memory_summary. rewrite Hlog. cbn [default from_option id].
    rewrite Hshown. destruct recent as [|e es]; [done|].
    cbn [fmap list_fmap]. do 2 f_equal.
    fold (fmap text es). fold (fmap (fun m => "- " +:+ m) (text <$> es)).
    by rewrite <- list_fmap_compose. }
  split; [exact H0|]. split; [by rewrite H0|]. split; [exact H1|].
  rewrite H1. destruct recent as [|e [|e' es]]; [done|done|].
  unfold Py.join. cbn [fmap list_fmap String.concat]. done.
Qed.

Lemma summary_is_sentinel_or_last_five_witness :
  let w := world_after None 51 in
  let older := take 16 (user_log w) in
  let recent := stamped tick 46 ["m46"; "m47"; "m48"; "m49"; "m50"] in
  (persistent_memories init_world !! user_name = None \/
   persistent_memories init_world !! user_name = Some []) /\
  persistent_memories w !! user_name = Some (older ++ recent) /\
  recent <> [] /\
  (length recent = 5 \/ (older = [] /\ length recent <= 5)) /\
  get_memory_summary init_world = "No past memories yet." /\
  get_memory_summary w =
    "- m46" +:+ Py.newline +:+ "- m47" +:+ Py.newline +:+ "- m48" +:+ Py.newline +:+
    "- m49" +:+ Py.newline +:+ "- m50".
Proof.
  intros w older recent.
  assert (H0 : persistent_memories init_world !! user_name = None \/
               persistent_memories init_world !! user_name = Some [])
    by (left; reflexivity).
  assert (H1 : persistent_memories w !! user_name = Some (older ++ recent))
    by (vm_compute; reflexivity).
  assert (H2 : recent <> []) by done.
  assert (H3 : length recent = 5 \/ (older = [] /\ length recent <= 5))
    by (left; reflexivity).
  destruct (summary_is_sentinel_or_last_five init_world w older recent H0 H1 H2 H3)
    as (Hs & _ & Hr & _).
  split; [exact H0|]. split; [exact H1|]. split; [exact H2|]. split; [exact H3|].
  split; [exact Hs|]. rewrite Hr. reflexivity.
Defined.

(** ** Loading *)

(** C7, as the code has it: when the file is missing the loader yields the
    empty mapping; when the file exists and its content is not a JSON
    document the loader also yields the empty mapping, silently; when the
    content is a JSON document the loader returns the parsed value as it
    is, whether or not it has the shape of the persistence format; an
    error other than [JSONDecodeError] raised while opening or reading the
    file is not caught.  So the loader returns whenever opening and
    reading the file does not fail that way. *)
Theorem load_yields_empty_only_for_missing_or_undecodable (disk : Disk) :
  (forall e, disk MEMORY_FILE <> Some (ReadFails e)) ->
  exists v,
    load_memory_file disk = Ok v /\
    (disk MEMORY_FILE = None -> v = JDict []) /\
    (disk MEMORY_FILE = Some JSONDecodeError -> v = JDict []) /\
    (forall parsed, disk MEMORY_FILE = Some (Parses parsed) -> v = parsed).
Proof.
  intros Hreadable. unfold load_memory_file.
  destruct (disk MEMORY_FILE) as [[parsed| |e]|] eqn:Hfile.
  - exists parsed. repeat split; try done. by intros ? [= ->].
  - exists (JDict []). repeat split; done.
  - by destruct (Hreadable e).
  - exists (JDict []). repeat split; done.
Qed.

(** What is not caught propagates. *)
Lemma load_propagates_other_errors (disk : Disk) (e : PyExc) :
  disk MEMORY_FILE = Some (ReadFails e) -> load_memory_file disk = Raise e.
Proof. unfold load_memory_file. by intros ->. Qed.

Lemma load_yields_empty_only_for_missing_or_undecodable_witness :
  (forall e, disk_with JSONDecodeError MEMORY_FILE <> Some (ReadFails e)) /\
  load_memory_file (disk_with JSONDecodeError) = Ok (JDict []) /\
  load_memory_file empty_disk = Ok (JDict []).
Proof.
  assert (H : forall e, disk_with JSONDecodeError MEMORY_FILE <> Some (ReadFails e))
    by (intros e; vm_compute; discriminate).
  split; [exact H|].
  destruct (load_yields_empty_only_for_missing_or_undecodable
              (disk_with JSONDecodeError) H) as (v & Hload & _ & Hbad & _).
  split; [|reflexivity].
  rewrite Hload. f_equal. apply Hbad. reflexivity.
Defined.

(** The claim C7 itself fails for content that is a JSON document but not
    a memory state: a file holding the empty array is loaded as the empty
    list, not as the empty mapping. *)
Lemma corrupt_but_valid_json_is_not_reset :
  is_memory_state (JList []) = false /\
  load_memory_file (disk_with (Parses (JList []))) = Ok (JList []) /\
  load_memory_file (disk_with (Parses (JList []))) <> Ok (JDict []).
Proof. split; [reflexivity|]. split; [reflexivity|]. vm_compute. discriminate. Qed.

(** * Further properties of the memory subsystem *)

(** ** What an append does to the whole store *)

(** An append returns in every world. *)
Lemma add_memory_returns utcnow mem0 txt w :
  exists w', add_memory utcnow mem0 txt w = Ok (tt, w').
Proof.
  destruct (le_lt_dec 50 (length (user_log w))) as [Hge|Hlt].
  - eexists. by apply add_memory_compacts.
  - eexists. by apply add_memory_below.
Qed.

(** The log after an append ends with the new entry; what precedes it is
    the old log, or the summary entry and the last 19 old entries. *)
Lemma add_memory_log utcnow mem0 txt w :
  exists w' front,
    add_memory utcnow mem0 txt w = Ok (tt, w') /\
    user_log w' = front ++ [new_entry utcnow w txt] /\
    persistent_memories w' = <[user_name := user_log w']> (persistent_memories w) /\
    length (user_log w') = next_length (length (user_log w)) /\
    clock_reads w' =
      clock_reads w + (if (50 <=? length (user_log w))%nat then 2 else 1).
Proof.
  unfold next_length.
  destruct (Nat.leb_spec 50 (length (user_log w))) as [Hge|Hlt].
  - eexists. eexists. split; [by apply add_memory_compacts|].
    cbv zeta. rewrite user_log_insert. cbn [persistent_memories clock_reads].
    rewrite slice_from_20, length_app. cbn [length].
    replace (length (user_log w) + 1 - 20) with (length (user_log w) - 19) by lia.
    rewrite drop_app_le by lia.
    split; [rewrite app_comm_cons; reflexivity|]. split; [reflexivity|].
    split; [|lia].
    rewrite length_app, length_drop. simpl. lia.
  - eexists. eexists. split; [by apply add_memory_below|].
    cbv zeta. rewrite user_log_insert. cbn [persistent_memories clock_reads].
    split; [reflexivity|]. split; [reflexivity|].
    split; [rewrite length_app; simpl|]; lia.
Qed.

(** X1: an append touches the configured user's log only: the log of every
    other user identity in the store is what it was, also when the append
    compacts, and the configured user has a log afterwards. *)
Theorem add_memory_keeps_other_users
    (utcnow : nat -> Time) (mem0 : option Mem0Client)
    (txt user_id : string) (w : World) :
  user_id <> user_name ->
  exists w',
    exec (add_memory utcnow mem0 txt) w = Ok w' /\
    persistent_memories w' !! user_id = persistent_memories w !! user_id /\
    dom (persistent_memories w') = {[ user_name ]} ∪ dom (persistent_memories w).
Proof.
  intros Hne.
  destruct (add_memory_log utcnow mem0 txt w) as (w' & front & Hrun & _ & Hpm & _).
  exists w'. split; [by apply exec_Ok in Hrun|].
  rewrite Hpm. split; [by rewrite lookup_insert_ne|].
  apply dom_insert_L.
Qed.

Lemma add_memory_keeps_other_users_witness :
  "Amina" <> user_name /\
  exists w',
    exec (add_memory tick None "again") two_user_world = Ok w' /\
    persistent_memories w' !! "Amina" = Some [ {| text := "hello"; timestamp := 7 |} ].
Proof.
  assert (Hne : "Amina" <> user_name) by discriminate.
  split; [exact Hne|].
  destruct (add_memory_keeps_other_users tick None "again" "Amina" two_user_world Hne)
    as (w' & Hrun & Hsame & _).
  exists w'. split; [exact Hrun|]. rewrite Hsame. vm_compute. reflexivity.
Defined.

(** ** The growth cycle *)

Lemma add_memories_lengths utcnow mem0 txts : forall w,
  exists w',
    add_memories utcnow mem0 txts w = Ok (tt, w') /\
    length (user_log w') = lengths_from (length txts) (length (user_log w)) /\
    clock_reads w' =
      clock_reads w + clock_reads_from (length txts) (length (user_log w)).
Proof.
  induction txts as [|t ts IH]; intros w.
  - exists w. split; [reflexivity|]. split; [reflexivity|]. simpl. lia.
  - destruct (add_memory_log utcnow mem0 t w)
      as (w1 & front & Hrun & _ & _ & Hlen & Hclk).
    destruct (IH w1) as (w' & Hrun' & Hlen' & Hclk').
    exists w'. split; [|split].
    + simpl. unfold bind. rewrite Hrun. exact Hrun'.
    + rewrite Hlen', Hlen. reflexivity.
    + rewrite Hclk', Hclk, Hlen. simpl. lia.
Qed.

Lemma mod_30_succ m :
  S m mod 30 = if (m mod 30 =? 29)%nat then 0 else S (m mod 30).
Proof.
  pose proof (Nat.div_mod_eq m 30) as Hm.
  pose proof (Nat.mod_upper_bound m 30 ltac:(lia)) as Hr.
  destruct (Nat.eqb_spec (m mod 30) 29) as [H29|H29].
  - symmetry. apply (Nat.mod_unique (S m) 30 (S (m / 30)) 0); lia.
  - symmetry. apply (Nat.mod_unique (S m) 30 (m / 30) (S (m mod 30))); lia.
Qed.

Lemma div_30_succ m :
  S m / 30 = if (m mod 30 =? 29)%nat then S (m / 30) else m / 30.
Proof.
  pose proof (Nat.div_mod_eq m 30) as Hm.
  pose proof (Nat.mod_upper_bound m 30 ltac:(lia)) as Hr.
  destruct (Nat.eqb_spec (m mod 30) 29) as [H29|H29].
  - symmetry. apply (Nat.div_unique (S m) 30 (S (m / 30)) 0); lia.
  - symmetry. apply (Nat.div_unique (S m) 30 (m / 30) (S (m mod 30))); lia.
Qed.

Lemma next_length_after m : next_length (log_length_after m) = log_length_after (S m).
Proof.
  unfold next_length, log_length_after.
  destruct (Nat.leb_spec m 50) as [Hm|Hm].
  - destruct (Nat.leb_spec 50 m) as [H50|H50].
    + assert (m = 50) as -> by lia. reflexivity.
    + destruct (Nat.leb_spec (S m) 50); [reflexivity|lia].
  - destruct (Nat.leb_spec (S m) 50) as [?|_]; [lia|].
    replace (S m - 51) with (S (m - 51)) by lia.
    rewrite mod_30_succ.
    pose proof (Nat.mod_upper_bound (m - 51) 30 ltac:(lia)) as Hr.
    destruct (Nat.eqb_spec ((m - 51) mod 30) 29) as [H29|H29].
    + rewrite H29. reflexivity.
    + destruct (Nat.leb_spec 50 (21 + (m - 51) mod 30)); lia.
Qed.

Lemma lengths_from_after n : forall m,
  lengths_from n (log_length_after m) = log_length_after (m + n).
Proof.
  induction n as [|n IH]; intros m.
  - by rewrite Nat.add_0_r.
  - simpl. rewrite next_length_after, IH. f_equal. lia.
Qed.

Lemma compactions_after_succ m :
  compactions_after (S m) =
  compactions_after m + (if (50 <=? log_length_after m)%nat then 1 else 0).
Proof.
  unfold compactions_after, log_length_after.
  destruct (Nat.leb_spec m 50) as [Hm|Hm].
  - destruct (Nat.leb_spec 50 m) as [H50|H50].
    + assert (m = 50) as -> by lia. reflexivity.
    + destruct (Nat.leb_spec (S m) 50); [reflexivity|lia].
  - destruct (Nat.leb_spec (S m) 50) as [?|_]; [lia|].
    replace (S m - 51) with (S (m - 51)) by lia.
    rewrite div_30_succ.
    pose proof (Nat.mod_upper_bound (m - 51) 30 ltac:(lia)) as Hr.
    destruct (Nat.eqb_spec ((m - 51) mod 30) 29) as [H29|H29].
    + rewrite H29. simpl. lia.
    + destruct (Nat.leb_spec 50 (21 + (m - 51) mod 30)); lia.
Qed.

Lemma clock_reads_from_after n : forall m,
  clock_reads_from n (log_length_after m) + compactions_after m =
  n + compactions_after (m + n).
Proof.
  induction n as [|n IH]; intros m.
  - rewrite Nat.add_0_r. reflexivity.
  - cbn [clock_reads_from]. rewrite next_length_after.
    specialize (IH (S m)). rewrite compactions_after_succ in IH.
    replace (m + S n) with (S m + n) by lia.
    destruct (50 <=? log_length_after m)%nat; lia.
Qed.

(** The run of any [n] appends on an empty log, by its counts. *)
Lemma add_memories_counts utcnow mem0 txts w :
  user_log w = [] ->
  exists w',
    add_memories utcnow mem0 txts w = Ok (tt, w') /\
    length (user_log w') = log_length_after (length txts) /\
    clock_reads w' = clock_reads w + length txts + compactions_after (length txts).
Proof.
  intros Hempty.
  destruct (add_memories_lengths utcnow mem0 txts w) as (w' & Hrun & Hlen & Hclk).
  exists w'. split; [exact Hrun|].
  rewrite Hempty in Hlen, Hclk. change (length []) with (log_length_after 0) in Hlen, Hclk.
  rewrite lengths_from_after in Hlen.
  pose proof (clock_reads_from_after (length txts) 0) as Hc.
  change (compactions_after 0) with 0 in Hc. simpl in Hlen, Hc.
  split; [exact Hlen | lia].
Qed.

Lemma log_length_after_bounds n :
  log_length_after n <= 50 /\ (50 < n -> 21 <= log_length_after n).
Proof.
  unfold log_length_after.
  pose proof (Nat.mod_upper_bound (n - 51) 30 ltac:(lia)) as Hr.
  destruct (Nat.leb_spec n 50); split; lia.
Qed.

(** X3: the length of the log after [n] appends to an empty log, whatever
    the texts, the clock and the remote client: [n] up to 50, then 21 after
    the 51st append and one more with every append until the next
    compaction.  Compaction comes at append 51 and then every 30 appends
    (81, 111, ...): the run reads the clock once per append and once more
    per compaction. *)
Theorem log_length_cycles_every_30_appends
    (utcnow : nat -> Time) (mem0 : option Mem0Client)
    (txts : list string) (w : World) :
  user_log w = [] ->
  exists w',
    exec (add_memories utcnow mem0 txts) w = Ok w' /\
    length (user_log w') = log_length_after (length txts) /\
    clock_reads w' = clock_reads w + length txts + compactions_after (length txts) /\
    length (user_log w') <= 50 /\
    (50 < length txts -> 21 <= length (user_log w')).
Proof.
  intros Hempty.
  destruct (add_memories_counts utcnow mem0 txts w Hempty) as (w' & Hrun & Hlen & Hclk).
  exists w'. split; [by apply exec_Ok in Hrun|].
  rewrite Hlen. split; [reflexivity|]. split; [exact Hclk|].
  apply log_length_after_bounds.
Qed.

Lemma log_length_cycles_every_30_appends_witness :
  user_log init_world = [] /\
  exists w',
    exec (add_memories tick None (m_texts 81)) init_world = Ok w' /\
    length (user_log w') = 21 /\
    clock_reads w' = 83.
Proof.
  split; [reflexivity|].
  destruct (log_length_cycles_every_30_appends tick None (m_texts 81) init_world eq_refl)
    as (w' & Hrun & Hlen & Hclk & _).
  exists w'. split; [exact Hrun|].
  rewrite Hlen, Hclk, m_texts_length. split; reflexivity.
Defined.

(** Reachable worlds are the worlds runs of appends end in. *)
Lemma reachable_as_run utcnow mem0 w :
  reachable utcnow mem0 w ->
  exists txts, exec (add_memories utcnow mem0 txts) init_world = Ok w.
Proof.
  induction 1 as [|w txt w' _ (txts & Hrun) Hstep].
  - by exists [].
  - exists (txts ++ [txt]). unfold exec in *.
    destruct (add_memories utcnow mem0 txts init_world) as [[[] w0]|] eqn:Hr; [|done].
    injection Hrun as ->.
    by rewrite (add_memories_snoc utcnow mem0 txts txt init_world w Hr).
Qed.

(** X2: in every world reached from an empty store the user's log holds at
    most 50 entries, so [GET /health] never reports more than 50 memory
    entries and [GET /memory] never returns more than 50. *)
Theorem reachable_log_has_at_most_50_entries
    (utcnow : nat -> Time) (mem0 : option Mem0Client) (w : World) :
  reachable utcnow mem0 w ->
  length (user_log w) <= 50 /\
  memory_entries (health_check w) <= 50 /\
  length (report_memories (get_memory w)) <= 50.
Proof.
  intros Hreach. destruct (reachable_as_run utcnow mem0 w Hreach) as (txts & Hrun).
  destruct (add_memories_counts utcnow mem0 txts init_world eq_refl)
    as (w' & Hrun' & Hlen & _).
  apply exec_Ok in Hrun'. rewrite Hrun in Hrun'. injection Hrun' as <-.
  pose proof (log_length_after_bounds (length txts)) as [Hle _].
  rewrite <- Hlen in Hle.
  split; [exact Hle|]. split; exact Hle.
Qed.

Lemma reachable_log_has_at_most_50_entries_witness :
  reachable tick None (world_after None 51) /\
  memory_entries (health_check (world_after None 51)) <= 50.
Proof.
  assert (H : reachable tick None (world_after None 51))
    by (apply world_after_reachable; vm_compute; reflexivity).
  split; [exact H|].
  exact (proj1 (proj2 (reachable_log_has_at_most_50_entries tick None _ H))).
Defined.

(** ** Reading after writing *)

Lemma join_snoc sep parts x :
  Py.join sep (parts ++ [x]) =
  match parts with
  | [] => x
  | _ => Py.join sep parts +:+ sep +:+ x
  end.
Proof.
  unfold Py.join. induction parts as [|y ys IH]; [reflexivity|].
  destruct ys as [|z zs]; [reflexivity|].
  change (String.concat sep ((y :: z :: zs) ++ [x]))
    with (y +:+ sep +:+ String.concat sep ((z :: zs) ++ [x])).
  rewrite IH.
  change (String.concat sep (y :: z :: zs))
    with (y +:+ sep +:+ String.concat sep (z :: zs)).
  by rewrite !string_app_assoc.
Qed.

(** The summary of a log that ends with [e] ends with the line of [e]. *)
Lemma summary_of_snoc w front e :
  user_log w = front ++ [e] ->
  exists pre,
    get_memory_summary w = pre +:+ "- " +:+ text e /\
    (pre = "" \/ exists pre', pre = "- " +:+ pre').
Proof.
  intros Hlog. unfold get_memory_summary. fold (user_log w).
  rewrite Hlog, slice_from_5, length_app. cbn [length].
  replace (length front + 1 - 5) with (length front - 4) by lia.
  rewrite drop_app_le by lia. rewrite fmap_app.
  change (text <$> [e]) with [text e].
  destruct (text <$> drop (length front - 4) front) as [|t ts].
  - exists "". split; [reflexivity|]. by left.
  - cbn [app]. rewrite fmap_cons, fmap_app.
    change ((fun m => "- " +:+ m) <$> [text e]) with ["- " +:+ text e].
    rewrite app_comm_cons, join_snoc.
    exists (Py.join Py.newline (("- " +:+ t) :: ((fun m => "- " +:+ m) <$> ts))
              +:+ Py.newline).
    split; [by rewrite !string_app_assoc|]. right.
    unfold Py.join. destruct ((fun m => "- " +:+ m) <$> ts) as [|z zs].
    + exists (t +:+ Py.newline). cbn [String.concat]. by rewrite !string_app_assoc.
    + exists (t +:+ Py.newline +:+ String.concat Py.newline (z :: zs) +:+ Py.newline).
      change (String.concat Py.newline (("- " +:+ t) :: z :: zs))
        with (("- " +:+ t) +:+ Py.newline +:+ String.concat Py.newline (z :: zs)).
      by rewrite !string_app_assoc.
Qed.

(** X4: right after an append the summary is never the "no memories"
    sentinel: it starts with the marker "- " and its last item is the
    text just appended, whatever the log was before and also when the
    append compacted the log. *)
Theorem summary_after_append_ends_with_new_text
    (utcnow : nat -> Time) (mem0 : option Mem0Client) (txt : string) (w : World) :
  exists w' pre,
    exec (add_memory utcnow mem0 txt) w = Ok w' /\
    get_memory_summary w' = pre +:+ "- " +:+ txt /\
    Py.startswith (get_memory_summary w') "- " = true /\
    get_memory_summary w' <> "No past memories yet.".
Proof.
  destruct (add_memory_log utcnow mem0 txt w) as (w' & front & Hrun & Hlog & _).
  destruct (summary_of_snoc w' front _ Hlog) as (pre & Hsum & Hpre).
  exists w', pre. split; [by apply exec_Ok in Hrun|]. split; [exact Hsum|].
  assert (Hstart : Py.startswith (get_memory_summary w') "- " = true).
  { rewrite Hsum. destruct Hpre as [->|[pre' ->]]; [reflexivity|].
    rewrite !string_app_assoc. reflexivity. }
  split; [exact Hstart|]. intros Heq. rewrite Heq in Hstart. discriminate.
Qed.

(** ** Compaction called on its own *)

(** X5: compaction of a log of at most 20 entries is not a no-op: the
    summarizer is given the empty text, nothing is dropped and the log
    grows by the summary entry, so every further call adds another one. *)
Theorem compaction_of_short_log_only_prepends
    (utcnow : nat -> Time) (mem0 : option Mem0Client)
    (user_id : string) (w : World) (log : list MemoryEntry) :
  persistent_memories w !! user_id = Some log ->
  length log <= 20 ->
  exists w',
    exec (summarize_old_memories utcnow mem0 user_id) w = Ok w' /\
    persistent_memories w' !! user_id =
      Some ({| text := "Summary of past: " +:+ summary_for mem0 (mem0_calls w) "" user_id;
               timestamp := utcnow (clock_reads w) |} :: log) /\
    trace w' = trace w ++ remote_event mem0 (EvMem0Summarize "" user_id).
Proof.
  intros Hlog Hlen. eexists. split.
  { apply exec_Ok with (a := tt), summarize_old_memories_run. exact Hlog. }
  cbv zeta. cbn [persistent_memories trace]. rewrite lookup_insert_eq.
  rewrite slice_to_20, slice_from_20.
  replace (length log - 20) with 0 by lia. rewrite take_0, drop_0.
  split; reflexivity.
Qed.

Lemma compaction_of_short_log_only_prepends_witness :
  let w := world_of_log [ {| text := "hi"; timestamp := 0 |} ] in
  persistent_memories w !! user_name = Some [ {| text := "hi"; timestamp := 0 |} ] /\
  length [ {| text := "hi"; timestamp := 0 |} ] <= 20 /\
  exists w',
    exec (summarize_old_memories tick None user_name) w = Ok w' /\
    persistent_memories w' !! user_name =
      Some [ {| text := "Summary of past: Past conversations and interactions";
                timestamp := 1 |};
             {| text := "hi"; timestamp := 0 |} ].
Proof.
  intros w.
  assert (H1 : persistent_memories w !! user_name = Some [ {| text := "hi"; timestamp := 0 |} ])
    by (vm_compute; reflexivity).
  assert (H2 : length [ {| text := "hi"; timestamp := 0 |} ] <= 20) by (simpl; lia).
  destruct (compaction_of_short_log_only_prepends tick None user_name w _ H1 H2)
    as (w' & Hrun & Hlog & _).
  split; [exact H1|]. split; [exact H2|].
  exists w'. split; [exact Hrun|]. rewrite Hlog. reflexivity.
Defined.

(** ** The remote sink *)

(** X6: what [mem0.add] does has no bearing on the append: with a client
    whose [add] raises, the append returns the same world (store, clock,
    counters and trace) as with any client that summarizes alike, and the
    store is the one an append without a client produces whenever the
    append does not compact. *)
Theorem remote_add_failure_is_swallowed
    (utcnow : nat -> Time) (c1 c2 : Mem0Client) (txt : string) (w : World) :
  mem0_summarize c1 = mem0_summarize c2 ->
  add_memory utcnow (Some c1) txt w = add_memory utcnow (Some c2) txt w /\
  (length (user_log w) < 50 ->
   exists w1 w0,
     exec (add_memory utcnow (Some c1) txt) w = Ok w1 /\
     exec (add_memory utcnow None txt) w = Ok w0 /\
     persistent_memories w1 = persistent_memories w0).
Proof.
  intros Hsame. split.
  - destruct (le_lt_dec 50 (length (user_log w))) as [Hge|Hlt].
    + rewrite !add_memory_compacts by exact Hge. cbv zeta.
      unfold summary_for. rewrite Hsame. reflexivity.
    + rewrite !add_memory_below by exact Hlt. reflexivity.
  - intros Hlt. eexists. eexists.
    split; [apply exec_Ok with (a := tt), add_memory_below; exact Hlt|].
    split; [apply exec_Ok with (a := tt), add_memory_below; exact Hlt|].
    reflexivity.
Qed.

Lemma remote_add_failure_is_swallowed_witness :
  mem0_summarize failing_client =
    mem0_summarize {| mem0_add := fun _ _ _ => Returns tt;
                      mem0_summarize := fun _ _ _ => Raises |} /\
  add_memory tick (Some failing_client) "hi" init_world =
    add_memory tick (Some {| mem0_add := fun _ _ _ => Returns tt;
                             mem0_summarize := fun _ _ _ => Raises |}) "hi" init_world.
Proof.
  split; [reflexivity|].
  exact (proj1 (remote_add_failure_is_swallowed tick failing_client
                  {| mem0_add := fun _ _ _ => Returns tt;
                     mem0_summarize := fun _ _ _ => Raises |} "hi" init_world eq_refl)).
Defined.

(** * Properties of the conversation handlers *)

(** An append keeps the newest entries of the log in place behind it, as
    long as they are fewer than 20. *)
Lemma add_memory_keeps_newest utcnow mem0 txt w front newest :
  user_log w = front ++ newest ->
  length newest < 20 ->
  exists w' front',
    add_memory utcnow mem0 txt w = Ok (tt, w') /\
    user_log w' = front' ++ newest ++ [new_entry utcnow w txt].
Proof.
  intros Hlog Hlen.
  destruct (le_lt_dec 50 (length (user_log w))) as [Hge|Hlt].
  - eexists. eexists. split; [by apply add_memory_compacts|].
    cbv zeta. rewrite user_log_insert, slice_from_20, Hlog.
    rewrite Hlog, length_app in Hge.
    rewrite <- app_assoc, !length_app. cbn [length].
    rewrite drop_app_le by lia.
    rewrite app_comm_cons. reflexivity.
  - eexists. eexists. split; [by apply add_memory_below|].
    cbv zeta. rewrite user_log_insert, Hlog, <- app_assoc. reflexivity.
Qed.

Section HandlerFacts.

Variable R : Runtime.
Variable utcnow : nat -> Time.
Variable mem0 : option Mem0Client.

(** Recording a text runs the append in the session's world. *)
Lemma record_memory_spec txt s :
  exists w',
    add_memory utcnow mem0 txt (world s) = Ok (tt, w') /\
    record_memory utcnow mem0 txt s = set_world s w'.
Proof.
  destruct (add_memory_returns utcnow mem0 txt (world s)) as [w' Hrun].
  exists w'. split; [exact Hrun|].
  unfold record_memory. by rewrite (exec_Ok _ _ _ _ Hrun).
Qed.

Lemma record_memory_newest txt s front newest :
  user_log (world s) = front ++ newest ->
  length newest < 20 ->
  exists front' t,
    user_log (world (record_memory utcnow mem0 txt s)) =
      front' ++ newest ++ [ {| text := txt; timestamp := t |} ].
Proof.
  intros Hlog Hlen.
  destruct (add_memory_keeps_newest utcnow mem0 txt (world s) front newest Hlog Hlen)
    as (w' & front' & Hrun & Hlog').
  exists front', (utcnow (clock_reads (world s))).
  unfold record_memory. rewrite (exec_Ok _ _ _ _ Hrun). exact Hlog'.
Qed.

Lemma record_memory_last txt s :
  exists front t,
    user_log (world (record_memory utcnow mem0 txt s)) =
      front ++ [ {| text := txt; timestamp := t |} ].
Proof.
  destruct (record_memory_newest txt s (user_log (world s)) []) as (front & t & H).
  - by rewrite app_nil_r.
  - simpl. lia.
  - by exists front, t.
Qed.

Lemma record_memory_fields txt s :
  current_mode (record_memory utcnow mem0 txt s) = current_mode s /\
  prompts (record_memory utcnow mem0 txt s) = prompts s /\
  speech_calls (record_memory utcnow mem0 txt s) = speech_calls s /\
  outbox (record_memory utcnow mem0 txt s) = outbox s /\
  agents (record_memory utcnow mem0 txt s) = agents s.
Proof.
  destruct (record_memory_spec txt s) as (w' & _ & ->). by repeat split.
Qed.

Lemma process_speech_session txt user_input mode s :
  snd (process_speech R txt user_input mode s) = log_speech s (txt, user_input, mode).
Proof. unfold process_speech. by destruct (String.eqb txt "" || str_blank R txt). Qed.

End HandlerFacts.

(** X7: what [POST /chat], run on its own, leaves in the log, by its
    outcome.  Without a
    language model the request fails with status 503 and the session is
    untouched.  On success the two newest entries are the user's message
    and then the assistant's reply, the reply recorded being the one
    returned.  On every other failure (status 500 when the model call
    raises, or the agent cannot be created) the user's message is the
    newest entry: it stays recorded without a reply. *)
Theorem chat_log_reflects_outcome
    (R : Runtime) (utcnow : nat -> Time) (mem0 : option Mem0Client)
    (message : string) (s : Session) :
  exists r s',
    chat_endpoint R utcnow mem0 message s = (r, s') /\
    match r with
    | inr resp =>
        llm_instance R = true /\
        status resp = "success" /\
        exists front t1 t2,
          user_log (world s') =
            front ++ [ {| text := "User (HTTP): " +:+ message; timestamp := t1 |};
                       {| text := "Assistant: " +:+ response resp; timestamp := t2 |} ]
    | inl (HTTPException code detail) =>
        (llm_instance R = false /\ code = 503 /\ s' = s) \/
        (llm_instance R = true /\ code = 500 /\
         exists front t1,
           user_log (world s') =
             front ++ [ {| text := "User (HTTP): " +:+ message; timestamp := t1 |} ])
    | inl (RuntimeException _) =>
        llm_instance R = true /\
        exists front t1,
          user_log (world s') =
            front ++ [ {| text := "User (HTTP): " +:+ message; timestamp := t1 |} ]
    | inl (UnboundLocalError _) => False
    end.
Proof.
  unfold chat_endpoint. destruct (llm_instance R) eqn:Hllm; cbn [negb].
  2: { eexists. eexists. split; [reflexivity|]. left. done. }
  set (s1 := record_memory utcnow mem0 ("User (HTTP): " +:+ message) s).
  destruct (record_memory_last utcnow mem0 ("User (HTTP): " +:+ message) s)
    as (front & t1 & Hlog1). fold s1 in Hlog1.
  destruct (agent_new R (agents s1)) as [[]|msg].
  2: { eexists. eexists. split; [reflexivity|]. split; [done|]. by exists front, t1. }
  cbv zeta.
  destruct (llm_generate R _ _) as [reply|msg].
  2: { eexists. eexists. split; [reflexivity|]. right. split; [done|].
       split; [done|]. by exists front, t1. }
  destruct (process_speech R reply "chaotic" "chaotic" _) as [natural_reply s4] eqn:Hsp.
  eexists. eexists. split; [reflexivity|]. split; [done|]. split; [done|].
  pose proof (process_speech_session R reply "chaotic" "chaotic"
                (log_prompt (count_agent s1)
                   (full_prompt message (get_memory_summary (world (count_agent s1))))))
    as Hs4.
  rewrite Hsp in Hs4. cbn [snd] in Hs4.
  destruct (record_memory_newest utcnow mem0 ("Assistant: " +:+ natural_reply) s4 front
              [ {| text := "User (HTTP): " +:+ message; timestamp := t1 |} ])
    as (front' & t2 & Hlog2).
  - rewrite Hs4. exact Hlog1.
  - simpl. lia.
  - exists front', t1, t2. exact Hlog2.
Qed.

(** X8: when [POST /chat] reaches the language model, the prompt it hands
    over holds the user's message twice: after "User said: ", and again as
    the last item of the memory context, because the message is recorded
    before the context is read. *)
Theorem chat_prompt_repeats_the_message
    (R : Runtime) (utcnow : nat -> Time) (mem0 : option Mem0Client)
    (message : string) (s : Session) :
  llm_instance R = true ->
  (forall n, agent_new R n = Done tt) ->
  exists r s' pre,
    chat_endpoint R utcnow mem0 message s = (r, s') /\
    prompts s' =
      prompts s ++
      [ "User said: " +:+ message +:+ Py.newline +:+ Py.newline +:+
        "Memory context:" +:+ Py.newline +:+
        pre +:+ "- User (HTTP): " +:+ message ].
Proof.
  intros Hllm Hagent. unfold chat_endpoint. rewrite Hllm. cbn [negb].
  set (s1 := record_memory utcnow mem0 ("User (HTTP): " +:+ message) s).
  destruct (record_memory_spec utcnow mem0 ("User (HTTP): " +:+ message) s)
    as (w1 & Hrun & Hs1). fold s1 in Hs1.
  destruct (add_memory_log utcnow mem0 ("User (HTTP): " +:+ message) (world s))
    as (w1' & front & Hrun' & Hlog & _).
  rewrite Hrun in Hrun'. injection Hrun' as <-.
  destruct (summary_of_snoc w1 front _ Hlog) as (pre & Hsum & _).
  cbn [text new_entry] in Hsum.
  rewrite Hagent. cbv zeta.
  assert (Hctx : get_memory_summary (world (count_agent s1)) =
                 pre +:+ "- " +:+ "User (HTTP): " +:+ message).
  { rewrite Hs1. exact Hsum. }
  assert (Hp : prompts (count_agent s1) = prompts s) by (rewrite Hs1; reflexivity).
  destruct (llm_generate R _ _) as [reply|msg].
  - destruct (process_speech R reply "chaotic" "chaotic" _) as [natural_reply s4] eqn:Hsp.
    pose proof (process_speech_session R reply "chaotic" "chaotic"
                  (log_prompt (count_agent s1)
                     (full_prompt message (get_memory_summary (world (count_agent s1))))))
      as Hs4.
    rewrite Hsp in Hs4. cbn [snd] in Hs4.
    eexists. eexists. exists pre. split; [reflexivity|].
    destruct (record_memory_fields utcnow mem0 ("Assistant: " +:+ natural_reply) s4)
      as (_ & -> & _).
    rewrite Hs4. cbn [prompts log_speech log_prompt]. rewrite Hp.
    unfold full_prompt. rewrite Hctx. reflexivity.
  - eexists. eexists. exists pre. split; [reflexivity|].
    cbn [prompts log_prompt]. rewrite Hp. unfold full_prompt. rewrite Hctx. reflexivity.
Qed.

Lemma chat_prompt_repeats_the_message_witness :
  llm_instance (echo_runtime "hello") = true /\
  (forall n, agent_new (echo_runtime "hello") n = Done tt) /\
  exists r s' pre,
    chat_endpoint (echo_runtime "hello") tick None "hi" init_session = (r, s') /\
    prompts s' =
      [ "User said: " +:+ "hi" +:+ Py.newline +:+ Py.newline +:+
        "Memory context:" +:+ Py.newline +:+ pre +:+ "- User (HTTP): " +:+ "hi" ].
Proof.
  split; [reflexivity|]. split; [reflexivity|].
  exact (chat_prompt_repeats_the_message (echo_runtime "hello") tick None "hi"
           init_session eq_refl (fun _ => eq_refl)).
Defined.

Lemma switch_mode_fields lowered s :
  world (switch_mode lowered s) = world s /\
  prompts (switch_mode lowered s) = prompts s /\
  speech_calls (switch_mode lowered s) = speech_calls s /\
  outbox (switch_mode lowered s) = outbox s.
Proof.
  unfold switch_mode.
  destruct (any_in _ lowered); [done|].
  destruct (any_in _ lowered); [done|].
  by destruct (Py.contains "therapy" lowered).
Qed.

(** X9: when the model call of [on_message] raises, the handler apologises
    and then fails itself: the user's message has been recorded and is the
    newest entry, the styled apology is the one message sent, and the
    handler ends in [UnboundLocalError] on [natural_reply] instead of
    recording an assistant entry. *)
Theorem on_message_fails_after_model_error
    (R : Runtime) (utcnow : nat -> Time) (mem0 : option Mem0Client)
    (txt : string) (s : Session) :
  (forall p, exists msg, agent_generate R (length (prompts s)) p = Throws msg) ->
  (forall m, send_message R (length (outbox s)) m = Done tt) ->
  exists s' front t,
    on_message R utcnow mem0 "user" txt s =
      (inl (UnboundLocalError "natural_reply"), s') /\
    user_log (world s') = front ++ [ {| text := "User: " +:+ txt; timestamp := t |} ] /\
    outbox s' =
      outbox s ++
      [ if str_blank R "Um, sorry, I hit an error while thinking."
        then "Um, sorry, I hit an error while thinking."
        else speech_styled R (length (speech_calls s))
               "Um, sorry, I hit an error while thinking." (current_mode s') "chaotic" ].
Proof.
  intros Hgen Hsend. unfold on_message. cbn [String.eqb Ascii.eqb Bool.eqb negb].
  set (s1 := record_memory utcnow mem0 ("User: " +:+ txt) s).
  destruct (record_memory_last utcnow mem0 ("User: " +:+ txt) s) as (front & t & Hlog).
  fold s1 in Hlog.
  destruct (record_memory_fields utcnow mem0 ("User: " +:+ txt) s)
    as (_ & Hp1 & Hc1 & Ho1 & _). fold s1 in Hp1, Hc1, Ho1.
  set (s2 := switch_mode (str_lower R txt) s1).
  destruct (switch_mode_fields (str_lower R txt) s1) as (Hw2 & Hp2 & Hc2 & Ho2).
  fold s2 in Hw2, Hp2, Hc2, Ho2.
  unfold on_message_try.
  destruct (Hgen (full_prompt txt (get_memory_summary (world s2)))) as [msg Hthrow].
  rewrite Hp2, Hp1, Hthrow.
  unfold process_speech.
  cbn [String.eqb Ascii.eqb Bool.eqb orb speech_calls log_prompt current_mode].
  rewrite Hc2, Hc1.
  destruct (str_blank R "Um, sorry, I hit an error while thinking.");
    cbn [outbox log_speech log_prompt]; rewrite Ho2, Ho1, Hsend;
    (eexists; exists front, t; split; [reflexivity|]);
    cbn [world log_send log_speech log_prompt outbox current_mode];
    rewrite Hw2, Ho2, Ho1; (split; [exact Hlog | reflexivity]).
Qed.

Lemma on_message_fails_after_model_error_witness :
  (forall p, exists msg,
      agent_generate broken_runtime (length (prompts init_session)) p = Throws msg) /\
  (forall m, send_message broken_runtime (length (outbox init_session)) m = Done tt) /\
  exists s',
    on_message broken_runtime tick None "user" "hi" init_session =
      (inl (UnboundLocalError "natural_reply"), s') /\
    outbox s' = [ "um, Um, sorry, I hit an error while thinking." ].
Proof.
  assert (H1 : forall p, exists msg,
             agent_generate broken_runtime (length (prompts init_session)) p = Throws msg)
    by (intros p; by exists "model unreachable").
  assert (H2 : forall m, send_message broken_runtime (length (outbox init_session)) m
                         = Done tt) by done.
  split; [exact H1|]. split; [exact H2|].
  destruct (on_message_fails_after_model_error broken_runtime tick None "hi"
              init_session H1 H2) as (s' & front & t & Hrun & _ & Hout).
  exists s'. split; [exact Hrun|]. rewrite Hout. reflexivity.
Defined.

(** X10: when the model answers and the transport accepts the message,
    [on_message], run on its own, returns and the two newest entries of the
    log are the
    user's message and then the assistant's turn.  A styled reply that is
    not blank is sent and recorded as it was sent; a blank one is not sent
    at all and is recorded as "[Tool executed silently]". *)
Theorem on_message_records_both_turns
    (R : Runtime) (utcnow : nat -> Time) (mem0 : option Mem0Client)
    (txt reply : string) (s : Session) :
  (forall p, agent_generate R (length (prompts s)) p = Done reply) ->
  (forall m, send_message R (length (outbox s)) m = Done tt) ->
  exists s' front t1 t2 natural_reply,
    on_message R utcnow mem0 "user" txt s = (inr tt, s') /\
    natural_reply =
      (if String.eqb reply "" || str_blank R reply
       then reply
       else speech_styled R (length (speech_calls s)) reply (current_mode s') "chaotic") /\
    user_log (world s') =
      front ++
      [ {| text := "User: " +:+ txt; timestamp := t1 |};
        {| text := "Assistant: " +:+
                   (if str_blank R natural_reply
                    then "[Tool executed silently]" else natural_reply);
           timestamp := t2 |} ] /\
    outbox s' = outbox s ++ (if str_blank R natural_reply then [] else [natural_reply]).
Proof.
  intros Hgen Hsend. unfold on_message. cbn [String.eqb Ascii.eqb Bool.eqb negb].
  set (s1 := record_memory utcnow mem0 ("User: " +:+ txt) s).
  destruct (record_memory_last utcnow mem0 ("User: " +:+ txt) s) as (front & t1 & Hlog).
  fold s1 in Hlog.
  destruct (record_memory_fields utcnow mem0 ("User: " +:+ txt) s)
    as (_ & Hp1 & Hc1 & Ho1 & _). fold s1 in Hp1, Hc1, Ho1.
  set (s2 := switch_mode (str_lower R txt) s1).
  destruct (switch_mode_fields (str_lower R txt) s1) as (Hw2 & Hp2 & Hc2 & Ho2).
  fold s2 in Hw2, Hp2, Hc2, Ho2.
  unfold on_message_try. rewrite Hp2, Hp1, Hgen.
  unfold process_speech. cbn [speech_calls log_prompt current_mode].
  rewrite Hc2, Hc1.
  assert (Hrest : forall natural_reply,
    let s3 := log_speech (log_prompt s2 (full_prompt txt (get_memory_summary (world s2))))
                (reply, current_mode s2, "chaotic") in
    exists s' front t1 t2,
      (let
         '(natural_reply0, raised, s4) :=
          if str_blank R natural_reply
          then (Some natural_reply, None, s3)
          else
            match send_message R (length (outbox s3)) natural_reply with
            | Done _ => (Some natural_reply, None, log_send s3 natural_reply)
            | Throws msg => (Some natural_reply, Some msg, log_send s3 natural_reply)
            end in
        match
          match raised with
          | Some _ =>
              let (error_reply, s5) :=
                process_speech R "Um, sorry, I hit an error while thinking."
                  (current_mode s4) "chaotic" s4 in
              match send_message R (length (outbox s5)) error_reply with
              | Done _ => (None, log_send s5 error_reply)
              | Throws msg => (Some msg, log_send s5 error_reply)
              end
          | None => (None, s4)
          end
        with
        | (Some msg, s5) => (inl (RuntimeException msg), s5)
        | (None, s5) =>
            match natural_reply0 with
            | Some reply0 =>
                (inr tt,
                 record_memory utcnow mem0
                   ("Assistant: " +:+
                    (if str_blank R reply0 then "[Tool executed silently]" else reply0))
                   s5)
            | None => (inl (UnboundLocalError "natural_reply"), s5)
            end
        end) = (inr tt, s') /\
      current_mode s' = current_mode s2 /\
      user_log (world s') =
        front ++
        [ {| text := "User: " +:+ txt; timestamp := t1 |};
          {| text := "Assistant: " +:+
                     (if str_blank R natural_reply
                      then "[Tool executed silently]" else natural_reply);
             timestamp := t2 |} ] /\
      outbox s' = outbox s ++ (if str_blank R natural_reply then [] else [natural_reply])).
  { intros natural_reply s3.
    assert (Hlog3 : user_log (world s3) =
                    front ++ [ {| text := "User: " +:+ txt; timestamp := t1 |} ]).
    { subst s3. cbn [world log_speech log_prompt]. rewrite Hw2. exact Hlog. }
    assert (Ho3 : outbox s3 = outbox s).
    { subst s3. cbn [outbox log_speech log_prompt]. by rewrite Ho2, Ho1. }
    assert (Hm3 : current_mode s3 = current_mode s2) by reflexivity.
    destruct (str_blank R natural_reply) eqn:Hblank.
    - destruct (record_memory_newest utcnow mem0
                  ("Assistant: " +:+ "[Tool executed silently]")
                  s3 front [ {| text := "User: " +:+ txt; timestamp := t1 |} ] Hlog3
                  ltac:(simpl; lia)) as (front' & t2 & Hlog').
      destruct (record_memory_fields utcnow mem0
                  ("Assistant: " +:+ "[Tool executed silently]") s3)
        as (Hm' & _ & _ & Ho' & _).
      eexists. exists front', t1, t2.
      rewrite Hblank. split; [reflexivity|]. rewrite Hm', Hm3. split; [reflexivity|].
      split; [exact Hlog'|].
      rewrite Ho', Ho3, app_nil_r. reflexivity.
    - rewrite Ho3, Hsend.
      destruct (record_memory_newest utcnow mem0 ("Assistant: " +:+ natural_reply)
                  (log_send s3 natural_reply) front
                  [ {| text := "User: " +:+ txt; timestamp := t1 |} ] Hlog3
                  ltac:(simpl; lia)) as (front' & t2 & Hlog').
      destruct (record_memory_fields utcnow mem0
                  ("Assistant: " +:+ natural_reply) (log_send s3 natural_reply))
        as (Hm' & _ & _ & Ho' & _).
      eexists. exists front', t1, t2.
      rewrite Hblank. split; [reflexivity|]. rewrite Hm'. split; [reflexivity|].
      split; [exact Hlog'|].
      rewrite Ho'. cbn [outbox log_send]. by rewrite Ho3. }
  destruct (String.eqb reply "" || str_blank R reply) eqn:Hb.
  - destruct (Hrest reply) as (s' & front' & t1' & t2 & Hrun & Hmode & Hlog' & Hout).
    exists s', front', t1', t2, reply. rewrite ?Hmode. by repeat split.
  - destruct (Hrest (speech_styled R (length (speech_calls s)) reply
                       (current_mode s2) "chaotic"))
      as (s' & front' & t1' & t2 & Hrun & Hmode & Hlog' & Hout).
    exists s', front', t1', t2,
      (speech_styled R (length (speech_calls s)) reply (current_mode s2) "chaotic").
    rewrite ?Hmode. by repeat split.
Qed.

Lemma on_message_records_both_turns_witness :
  (forall p, agent_generate (echo_runtime "ok") (length (prompts init_session)) p
             = Done "ok") /\
  (forall m, send_message (echo_runtime "ok") (length (outbox init_session)) m
             = Done tt) /\
  exists s',
    on_message (echo_runtime "ok") tick None "user" "hi" init_session = (inr tt, s') /\
    text <$> user_log (world s') = ["User: hi"; "Assistant: heh, ok"] /\
    outbox s' = ["heh, ok"].
Proof.
  assert (H1 : forall p, agent_generate (echo_runtime "ok")
                           (length (prompts init_session)) p = Done "ok") by done.
  assert (H2 : forall m, send_message (echo_runtime "ok")
                           (length (outbox init_session)) m = Done tt) by done.
  split; [exact H1|]. split; [exact H2|].
  destruct (on_message_records_both_turns (echo_runtime "ok") tick None "hi" "ok"
              init_session H1 H2) as (s' & front & t1 & t2 & nr & Hrun & _).
  exists s'. split; [exact Hrun|].
  vm_compute in Hrun. injection Hrun as <-. split; reflexivity.
Defined.

(** X11: whatever the outcome, every call of [process_speech] that
    [on_message] makes passes the agent's current mode in the position of
    [user_input] and lets [mode] default to "chaotic"; the user's text
    never reaches it as [user_input].  [POST /chat] passes "chaotic" in
    both positions. *)
Theorem speech_mode_is_always_chaotic
    (R : Runtime) (utcnow : nat -> Time) (mem0 : option Mem0Client)
    (role txt : string) (s : Session) :
  (exists r s' calls,
     on_message R utcnow mem0 role txt s = (r, s') /\
     speech_calls s' = speech_calls s ++ calls /\
     Forall (fun c => snd (fst c) = current_mode s' /\ snd c = "chaotic") calls) /\
  (exists r s' calls,
     chat_endpoint R utcnow mem0 txt s = (r, s') /\
     speech_calls s' = speech_calls s ++ calls /\
     Forall (fun c => snd (fst c) = "chaotic" /\ snd c = "chaotic") calls).
Proof.
  split.
  - unfold on_message. destruct (negb (String.eqb role "user")).
    { exists (inr tt), s, []. rewrite app_nil_r. by repeat split. }
    set (s1 := record_memory utcnow mem0 ("User: " +:+ txt) s).
    destruct (record_memory_fields utcnow mem0 ("User: " +:+ txt) s)
      as (_ & _ & Hc1 & _). fold s1 in Hc1.
    set (s2 := switch_mode (str_lower R txt) s1).
    destruct (switch_mode_fields (str_lower R txt) s1) as (_ & _ & Hc2 & _).
    fold s2 in Hc2. rewrite <- Hc1, <- Hc2. clearbody s2. clear.
    unfold on_message_try, process_speech.
    repeat match goal with
           | |- context [match ?x with Done _ => _ | Throws _ => _ end] => destruct x
           | |- context [if ?b then _ else _] => destruct b
           end;
      cbn [fst snd outbox speech_calls current_mode log_send log_speech log_prompt];
      repeat match goal with
             | |- context [match ?x with Done _ => _ | Throws _ => _ end] => destruct x
             | |- context [if ?b then _ else _] => destruct b
             end;
      try (eexists; eexists; eexists; split; [reflexivity|];
           match goal with
           | |- context [record_memory ?u ?m ?t ?x] =>
               destruct (record_memory_fields u m t x) as (-> & _ & -> & _)
           | _ => idtac
           end;
           cbn [speech_calls current_mode log_send log_speech log_prompt];
           rewrite <- ?app_assoc;
           split; [reflexivity|]; repeat constructor).
  - unfold chat_endpoint. destruct (negb (llm_instance R)).
    { eexists _, s, []. rewrite app_nil_r. by repeat split. }
    set (s1 := record_memory utcnow mem0 ("User (HTTP): " +:+ txt) s).
    destruct (record_memory_fields utcnow mem0 ("User (HTTP): " +:+ txt) s)
      as (_ & _ & Hc1 & _). fold s1 in Hc1. rewrite <- Hc1. clearbody s1.
    destruct (agent_new R (agents s1)).
    2: { eexists _, _, []. rewrite app_nil_r. by repeat split. }
    cbv zeta. destruct (llm_generate R _ _).
    2: { eexists _, _, []. rewrite app_nil_r. by repeat split. }
    unfold process_speech. destruct (_ || _);
      (eexists; eexists; eexists; split; [reflexivity|];
       match goal with
       | |- context [record_memory ?u ?m ?t ?x] =>
           destruct (record_memory_fields u m t x) as (_ & _ & -> & _)
       end;
       cbn [speech_calls log_speech log_prompt count_agent];
       split; [reflexivity|]; repeat constructor).
Qed.

(** * Properties of the timer tools *)

(** X12: a timer that is done is reported done once: [check_timer] removes
    it from the table, leaves every other timer alone, and the next check
    of the same id answers "not found". *)
Theorem done_timer_is_reported_once (timer_id : Z) (T : Timers) :
  active_timers T !! timer_id = Some "DONE" ->
  exists T1,
    check_timer timer_id T =
      ("Timer " +:+ str_of_int timer_id +:+ " is DONE! Time's up!", T1) /\
    active_timers T1 !! timer_id = None /\
    (forall other, other <> timer_id ->
       active_timers T1 !! other = active_timers T !! other) /\
    check_timer timer_id T1 =
      ("Timer " +:+ str_of_int timer_id +:+ " not found.", T1).
Proof.
  intros Hdone. eexists. split.
  { unfold check_timer. rewrite Hdone. reflexivity. }
  cbn [active_timers]. split; [apply lookup_delete_eq|].
  split; [intros other Hne; by apply lookup_delete_ne|].
  unfold check_timer. cbn [active_timers]. rewrite lookup_delete_eq. reflexivity.
Qed.

Lemma done_timer_is_reported_once_witness :
  let T := thread_ends 0 (snd (set_timer (same_draw 4321) threads_start 0 no_timers)) in
  active_timers T !! 4321%Z = Some "DONE" /\
  exists T1,
    check_timer 4321 T = ("Timer 4321 is DONE! Time's up!", T1) /\
    check_timer 4321 T1 = ("Timer 4321 not found.", T1).
Proof.
  intros T.
  assert (H : active_timers T !! 4321%Z = Some "DONE") by (vm_compute; reflexivity).
  split; [exact H|].
  destruct (done_timer_is_reported_once 4321 T H) as (T1 & H1 & _ & _ & H2).
  exists T1. split; [exact H1 | exact H2].
Defined.



Section TimerFacts.

Variable randint : nat -> Z.
Variable thread_start : nat -> call unit.

Lemma timers_ok_reachable T :
  (forall n, (1000 <= randint n <= 9999)%Z) ->
  timers_reachable randint thread_start T -> timers_ok T.
Proof.
  intros Hrange. induction 1 as [|T minutes _ [IHt IHth]|T k _ [IHt IHth]|T tid _ [IHt IHth]].
  - split; [|constructor]. intros tid st H.
    change (active_timers no_timers) with (∅ : gmap Z string) in H.
    by rewrite lookup_empty in H.
  - unfold set_timer. destruct (thread_start (timers_set T)); cbn [snd].
    all: split; cbn [active_timers timer_threads].
    all: try (intros tid st Hl; destruct (decide (randint (timers_set T) = tid)) as [<-|Hne];
              [rewrite lookup_insert_eq in Hl; injection Hl as <-; split; [by left|apply Hrange]
              |rewrite lookup_insert_ne in Hl by done; by apply IHt]).
    + apply Forall_app. split; [exact IHth|]. constructor; [apply Hrange|constructor].
    + exact IHth.
  - unfold thread_ends. destruct (timer_threads T !! k) as [[seconds tid]|] eqn:Hk.
    2: { by split. }
    assert (Htid : (1000 <= tid <= 9999)%Z).
    { rewrite Forall_lookup in IHth. exact (IHth k _ Hk). }
    split; cbn [active_timers timer_threads].
    + destruct (time_sleep seconds); [|exact IHt|exact IHt].
      intros tid' st Hl. destruct (decide (tid = tid')) as [<-|Hne].
      * rewrite lookup_insert_eq in Hl. injection Hl as <-. split; [by right|exact Htid].
      * rewrite lookup_insert_ne in Hl by done. by apply IHt.
    + rewrite Forall_lookup. intros i th Hi. rewrite list_lookup_delete in Hi.
      rewrite Forall_lookup in IHth. by eapply IHth.
  - unfold check_timer.
    destruct (String.eqb _ "DONE"); [|destruct (String.eqb _ "RUNNING"); by split].
    split; cbn [snd active_timers timer_threads]; [|exact IHth].
    intros tid' st Hl. destruct (decide (tid = tid')) as [<-|Hne].
    + by rewrite lookup_delete_eq in Hl.
    + rewrite lookup_delete_ne in Hl by done. by apply IHt.
Qed.

(** X13: as long as the ids are drawn from 1000 to 9999, every table the
    tools and the threads lead to holds only such ids, each as "RUNNING" or
    "DONE"; a check of any other id changes nothing and answers "not
    found". *)
Theorem timers_hold_drawn_ids_only (T : Timers) (timer_id : Z) :
  (forall n, (1000 <= randint n <= 9999)%Z) ->
  timers_reachable randint thread_start T ->
  (forall st, active_timers T !! timer_id = Some st ->
     (st = "RUNNING" \/ st = "DONE") /\ (1000 <= timer_id <= 9999)%Z) /\
  ((timer_id < 1000 \/ 9999 < timer_id)%Z ->
   check_timer timer_id T = ("Timer " +:+ str_of_int timer_id +:+ " not found.", T)).
Proof.
  intros Hrange Hreach.
  destruct (timers_ok_reachable T Hrange Hreach) as [Htable _].
  split; [intros st; apply Htable|].
  intros Hout. unfold check_timer.
  destruct (active_timers T !! timer_id) as [st|] eqn:Hl; [|reflexivity].
  destruct (Htable _ _ Hl) as [_ Hin]. lia.
Qed.




End TimerFacts.

Lemma timers_hold_drawn_ids_only_witness :
  let T := snd (set_timer (same_draw 4321) threads_start 5 no_timers) in
  (forall n, (1000 <= same_draw 4321 n <= 9999)%Z) /\
  timers_reachable (same_draw 4321) threads_start T /\
  active_timers T !! 4321%Z = Some "RUNNING" /\
  check_timer 5 T = ("Timer 5 not found.", T).
Proof.
  intros T.
  assert (H1 : forall n, (1000 <= same_draw 4321 n <= 9999)%Z)
    by (intros n; unfold same_draw; lia).
  assert (H2 : timers_reachable (same_draw 4321) threads_start T)
    by (apply timers_set_step, timers_init).
  split; [exact H1|]. split; [exact H2|]. split; [vm_compute; reflexivity|].
  apply (proj2 (timers_hold_drawn_ids_only (same_draw 4321) threads_start T 5 H1 H2)).
  lia.
Defined.




(** * Properties of the text utilities *)

Lemma contains_trans a b c :
  Py.contains a b = true -> Py.contains b c = true -> Py.contains a c = true.
Proof.
  rewrite !contains_spec. intros (p1 & q1 & ->) (p2 & q2 & ->).
  exists (p2 +:+ p1), (q1 +:+ q2). by rewrite !string_app_assoc.
Qed.

(** X16: the assistant counts as called exactly when the lowered text holds
    "khin" somewhere: the two longer wake words add nothing, the case of
    the letters does not matter and the match is not tied to whole words. *)
Theorem is_called_iff_text_holds_khin (lower : string -> string) (txt : string) :
  lower "Khin" = "khin" ->
  lower "KhinsLLM" = "khinsllm" ->
  lower "KhinsGPT" = "khinsgpt" ->
  is_called lower txt = Py.contains "khin" (lower txt).
Proof.
  intros H1 H2 H3. unfold is_called, WAKE_WORDS. cbn [existsb].
  rewrite H1, H2, H3, orb_false_r.
  assert (Hl : Py.contains "khinsllm" (lower txt) = true ->
               Py.contains "khin" (lower txt) = true).
  { apply contains_trans. reflexivity. }
  assert (Hg : Py.contains "khinsgpt" (lower txt) = true ->
               Py.contains "khin" (lower txt) = true).
  { apply contains_trans. reflexivity. }
  destruct (Py.contains "khin" (lower txt)); [reflexivity|].
  destruct (Py.contains "khinsllm" (lower txt)); [by specialize (Hl eq_refl)|].
  destruct (Py.contains "khinsgpt" (lower txt)); [by specialize (Hg eq_refl)|].
  reflexivity.
Qed.

Lemma is_called_iff_text_holds_khin_witness :
  lower_ascii "Khin" = "khin" /\
  lower_ascii "KhinsLLM" = "khinsllm" /\
  lower_ascii "KhinsGPT" = "khinsgpt" /\
  is_called lower_ascii "try the KHINKALI" = Py.contains "khin" (lower_ascii "try the KHINKALI") /\
  is_called lower_ascii "try the KHINKALI" = true.
Proof.
  split; [reflexivity|]. split; [reflexivity|]. split; [reflexivity|].
  split; [|reflexivity].
  exact (is_called_iff_text_holds_khin lower_ascii "try the KHINKALI"
           eq_refl eq_refl eq_refl).
Defined.

Lemma detect_special_users_filter (lower : string -> string) (txt : string) :
  detect_special_users lower txt =
  filter (fun user => Py.contains user (lower txt) = true) ["alvin"; "makutu"; "lumiti"].
Proof.
  unfold detect_special_users. cbn [fold_left].
  rewrite !filter_cons, filter_nil.
  destruct (Py.contains "alvin" (lower txt));
    destruct (Py.contains "makutu" (lower txt));
    destruct (Py.contains "lumiti" (lower txt)); reflexivity.
Qed.

(** X17: the special users found in a text are listed in the fixed order
    alvin, makutu, lumiti, each at most once, however often and in whatever
    order the text names them; a name is listed exactly when the lowered
    text holds it. *)
Theorem special_users_come_in_fixed_order (lower : string -> string) (txt : string) :
  detect_special_users lower txt `sublist_of` ["alvin"; "makutu"; "lumiti"] /\
  NoDup (detect_special_users lower txt) /\
  (forall user,
     user ∈ detect_special_users lower txt <->
     user ∈ ["alvin"; "makutu"; "lumiti"] /\ Py.contains user (lower txt) = true).
Proof.
  rewrite detect_special_users_filter. split; [apply sublist_filter|].
  split.
  - apply NoDup_filter. by apply (bool_decide_unpack _).
  - intros user. rewrite list_elem_of_filter. tauto.
Qed.

(** X18: language blending never fires on a mode name.  The handlers pass
    the agent's mode where [process_speech] expects the user's input; none
    of the three modes holds a word of [KISWAHILI_COMMON], so for such an
    input [blend_languages] returns the reply as it is, whatever the random
    draws. *)
Theorem blending_never_fires_on_a_mode_name
    (lower : string -> string) (coin : bool) (pick : nat) (reply mode : string) :
  mode ∈ agent_modes ->
  lower mode = mode ->
  detect_kiswahili lower mode = false /\
  blend_languages lower coin pick reply mode = reply.
Proof.
  intros Hin Hlow.
  assert (Hk : detect_kiswahili lower mode = false).
  { unfold detect_kiswahili. rewrite Hlow. unfold agent_modes in Hin.
    repeat (apply elem_of_cons in Hin as [->|Hin]; [vm_compute; reflexivity|]).
    by apply elem_of_nil in Hin. }
  split; [exact Hk|]. unfold blend_languages. by rewrite Hk.
Qed.

Lemma blending_never_fires_on_a_mode_name_witness :
  "nonchalant" ∈ agent_modes /\
  lower_ascii "nonchalant" = "nonchalant" /\
  blend_languages lower_ascii true 0 "all good" "nonchalant" = "all good" /\
  blend_languages lower_ascii true 0 "all good" "Sasa, niko poa" = "all good sawa".
Proof.
  assert (H1 : "nonchalant" ∈ agent_modes) by (unfold agent_modes; repeat constructor).
  split; [exact H1|]. split; [reflexivity|]. split; [|reflexivity].
  exact (proj2 (blending_never_fires_on_a_mode_name lower_ascii true 0 "all good"
                  "nonchalant" H1 eq_refl)).
Defined.

(** * The agent's mode *)

Lemma switch_mode_mode lowered s :
  current_mode (switch_mode lowered s) = mode_after lowered (current_mode s).
Proof.
  unfold switch_mode, mode_after.
  destruct (any_in _ lowered); [done|].
  destruct (any_in _ lowered); [done|].
  by destruct (Py.contains "therapy" lowered).
Qed.

Lemma on_message_mode R utcnow mem0 txt s :
  current_mode (snd (on_message R utcnow mem0 "user" txt s)) =
  mode_after (str_lower R txt) (current_mode s).
Proof.
  unfold on_message. cbn [String.eqb Ascii.eqb Bool.eqb negb].
  set (s1 := record_memory utcnow mem0 ("User: " +:+ txt) s).
  destruct (record_memory_fields utcnow mem0 ("User: " +:+ txt) s) as (Hm1 & _).
  fold s1 in Hm1. rewrite <- Hm1, <- switch_mode_mode.
  set (s2 := switch_mode (str_lower R txt) s1). clearbody s2. clear.
  unfold on_message_try, process_speech.
  repeat match goal with
         | |- context [match ?x with Done _ => _ | Throws _ => _ end] => destruct x
         | |- context [if ?b then _ else _] => destruct b
         end;
    cbn [fst snd outbox speech_calls current_mode log_send log_speech log_prompt];
    repeat match goal with
           | |- context [match ?x with Done _ => _ | Throws _ => _ end] => destruct x
           | |- context [if ?b then _ else _] => destruct b
           end;
    cbn [fst snd outbox speech_calls current_mode log_send log_speech log_prompt];
    try reflexivity;
    match goal with
    | |- context [record_memory ?u ?m ?t ?x] =>
        destruct (record_memory_fields u m t x) as (-> & _)
    end; reflexivity.
Qed.

(** X22: the agent's mode is always one of "chaotic", "nonchalant" and
    "therapist": a message keeps or switches it, whatever else happens in
    the handler.  The switches are tried in a fixed order, so a text that
    asks for chill mode switches to "nonchalant" even if it also mentions
    chaotic mode or therapy. *)
Theorem agent_mode_stays_known
    (R : Runtime) (utcnow : nat -> Time) (mem0 : option Mem0Client)
    (role txt : string) (s : Session) :
  current_mode s ∈ agent_modes ->
  current_mode (snd (on_message R utcnow mem0 role txt s)) ∈ agent_modes /\
  (role <> "user" ->
   current_mode (snd (on_message R utcnow mem0 role txt s)) = current_mode s) /\
  (role = "user" ->
   Py.contains "chill mode" (str_lower R txt) = true ->
   current_mode (snd (on_message R utcnow mem0 role txt s)) = "nonchalant").
Proof.
  intros Hin.
  destruct (String.eqb_spec role "user") as [->|Hrole].
  - rewrite on_message_mode. split; [|split; [done|]].
    + unfold mode_after, agent_modes.
      destruct (any_in _ _); [repeat constructor|].
      destruct (any_in _ _); [repeat constructor|].
      destruct (Py.contains "therapy" _); [repeat constructor|exact Hin].
    + intros _ Hchill. unfold mode_after, any_in. cbn [existsb].
      rewrite Hchill, !orb_true_r. reflexivity.
  - assert (Hsame : on_message R utcnow mem0 role txt s = (inr tt, s)).
    { unfold on_message. apply String.eqb_neq in Hrole. by rewrite Hrole. }
    rewrite Hsame. cbn [snd]. by repeat split.
Qed.

Lemma agent_mode_stays_known_witness :
  current_mode init_session ∈ agent_modes /\
  current_mode (snd (on_message (echo_runtime "ok") tick None "user"
                       "Chill mode please, no THERAPY" init_session)) = "nonchalant".
Proof.
  assert (H : current_mode init_session ∈ agent_modes)
    by (unfold agent_modes; repeat constructor).
  split; [exact H|].
  apply (proj2 (proj2 (agent_mode_stays_known (echo_runtime "ok") tick None "user"
                  "Chill mode please, no THERAPY" init_session H)));
    reflexivity.
Defined.

(** * Properties of the music tools *)

Lemma music_ok_calls_weaken (calls : list VlcCall) (n m : nat) :
  n <= m ->
  Forall (fun c =>
            match c with
            | PlayerSetVolume p level => p < n /\ (0 <= level <= 100)%Z
            | PlayerStop p | PlayerPlay p | PlayerPause p | PlayerNew p _ => p < n
            end) calls ->
  Forall (fun c =>
            match c with
            | PlayerSetVolume p level => p < m /\ (0 <= level <= 100)%Z
            | PlayerStop p | PlayerPlay p | PlayerPause p | PlayerNew p _ => p < m
            end) calls.
Proof.
  intros Hle Hall. eapply Forall_impl; [exact Hall|].
  intros [p|p url|p|p|p level]; cbn beta iota; lia.
Qed.

Lemma music_ok_reachable (V : MusicServices) (M : Music) :
  music_reachable V M -> music_ok M.
Proof.
  induction 1 as [|M song _ IH|M _ IH|M _ IH|M _ IH|M level _ IH].
  - split; [reflexivity|constructor].
  - unfold play_music.
    destruct (_get_stream_url V (songs_asked M) song) as [url|]; [|exact IH].
    destruct (String.eqb_spec url "") as [->|Hurl]; [exact IH|].
    destruct IH as [IHp IHc].
    split; cbn [snd player last_song players_made vlc_calls].
    + split; [lia|]. by exists song, url.
    + apply Forall_app. split; [eapply music_ok_calls_weaken; [|exact IHc]; lia|].
      apply Forall_app. split.
      * destruct (player M) as [old|]; [|constructor].
        destruct IHp as [Hold _]. constructor; [lia|constructor].
      * repeat constructor.
  - unfold pause_music. destruct IH as [IHp IHc]. unfold music_ok.
    destruct (player M) as [p|] eqn:Hp. 2: { cbn [snd]. by rewrite Hp. }
    destruct (vlc_is_playing V (playing_asked M));
      cbn [snd player last_song players_made vlc_calls]; (split; [exact IHp|]);
      [|exact IHc].
    apply Forall_app. split; [exact IHc|]. constructor; [tauto|constructor].
  - unfold resume_music. destruct IH as [IHp IHc]. unfold music_ok.
    destruct (player M) as [p|] eqn:Hp. 2: { cbn [snd]. by rewrite Hp. }
    cbn [snd player last_song players_made vlc_calls]. split; [exact IHp|].
    apply Forall_app. split; [exact IHc|]. constructor; [tauto|constructor].
  - unfold stop_music. destruct IH as [IHp IHc]. unfold music_ok.
    destruct (player M) as [p|] eqn:Hp. 2: { cbn [snd]. by rewrite Hp. }
    cbn [snd player last_song players_made vlc_calls]. split; [reflexivity|].
    apply Forall_app. split; [exact IHc|]. constructor; [tauto|constructor].
  - unfold set_volume. destruct IH as [IHp IHc]. unfold music_ok.
    destruct (player M) as [p|] eqn:Hp. 2: { cbn [snd]. by rewrite Hp. }
    destruct (Z.ltb_spec level 0) as [?|Hlo]; cbn [orb].
    { cbn [snd]. by rewrite Hp. }
    destruct (Z.ltb_spec 100 level) as [?|Hhi].
    { cbn [snd]. by rewrite Hp. }
    cbn [snd player last_song players_made vlc_calls]. split; [exact IHp|].
    apply Forall_app. split; [exact IHc|]. constructor; [|constructor].
    split; [tauto|lia].
Qed.

(** X19: in every state the music tools lead to, the player and the last
    song are set together and cleared together (with a stream url that is
    not empty when set), every call made on a player, of whatever kind,
    goes to a player that was created, and no volume outside 0 to 100 is
    ever passed to a player. *)
Theorem music_state_stays_consistent (V : MusicServices) (M : Music) :
  music_reachable V M ->
  (player M = None <-> last_song M = (None, None)) /\
  (forall p, player M = Some p ->
     p < players_made M /\
     exists title url, last_song M = (Some title, Some url) /\ url <> "") /\
  (forall c, c ∈ vlc_calls M -> vlc_target c < players_made M) /\
  (forall p level, PlayerSetVolume p level ∈ vlc_calls M ->
     p < players_made M /\ (0 <= level <= 100)%Z).
Proof.
  intros Hreach. destruct (music_ok_reachable V M Hreach) as [Hp Hc].
  split; [|split; [|split]].
  - destruct (player M) as [p|]; [|by split].
    destruct Hp as (_ & title & url & -> & _). by split.
  - intros p Hsome. rewrite Hsome in Hp. exact Hp.
  - intros c Hin. rewrite Forall_forall in Hc. specialize (Hc _ Hin).
    destruct c; cbn [vlc_target]; tauto.
  - intros p level Hin. rewrite Forall_forall in Hc. exact (Hc _ Hin).
Qed.

Lemma music_state_stays_consistent_witness :
  let M := snd (set_volume 150
                  (snd (set_volume 40
                          (snd (play_music one_stream "song" no_music))))) in
  music_reachable one_stream M /\
  vlc_calls M =
    [PlayerNew 0 "https://stream.example/abc123"; PlayerPlay 0; PlayerSetVolume 0 40] /\
  (forall c, c ∈ vlc_calls M -> vlc_target c < players_made M) /\
  (forall p level, PlayerSetVolume p level ∈ vlc_calls M -> (0 <= level <= 100)%Z).
Proof.
  intros M.
  assert (H : music_reachable one_stream M)
    by (do 2 apply music_volume; apply music_play, music_init).
  split; [exact H|]. split; [reflexivity|].
  destruct (music_state_stays_consistent one_stream M H) as (_ & _ & Htarget & Hvol).
  split; [exact Htarget|].
  intros p level Hin. exact (proj2 (Hvol p level Hin)).
Defined.

(** X20: once the music is stopped nothing can be controlled until the next
    song: the last song is forgotten, and pausing, resuming, stopping again
    and setting the volume each answer that there is no music, without a
    call to any player. *)
Theorem stopped_music_cannot_be_controlled (V : MusicServices) (M : Music) (p : nat) :
  player M = Some p ->
  let M1 := snd (stop_music M) in
  fst (stop_music M) = "⏹️ Music stopped." /\
  vlc_calls M1 = vlc_calls M ++ [PlayerStop p] /\
  player M1 = None /\
  last_song M1 = (None, None) /\
  pause_music V M1 = ("No music is currently playing.", M1) /\
  resume_music M1 = ("No song to resume.", M1) /\
  stop_music M1 = ("No music is currently playing.", M1) /\
  (forall level, set_volume level M1 = ("No music is playing to adjust volume.", M1)).
Proof.
  intros Hp M1.
  assert (HM1 : M1 = mkMusic None (None, None) (vlc_calls M ++ [PlayerStop p])
                       (players_made M) (songs_asked M) (playing_asked M)).
  { subst M1. unfold stop_music. by rewrite Hp. }
  split; [unfold stop_music; by rewrite Hp|].
  rewrite HM1. by repeat split.
Qed.

Lemma stopped_music_cannot_be_controlled_witness :
  let M := snd (play_music one_stream "song" no_music) in
  player M = Some 0 /\
  resume_music (snd (stop_music M)) = ("No song to resume.", snd (stop_music M)) /\
  set_volume 50 (snd (stop_music M)) =
    ("No music is playing to adjust volume.", snd (stop_music M)).
Proof.
  intros M. assert (H : player M = Some 0) by reflexivity.
  destruct (stopped_music_cannot_be_controlled one_stream M 0 H)
    as (_ & _ & _ & _ & _ & Hres & _ & Hvol).
  split; [exact H|]. split; [exact Hres | exact (Hvol 50%Z)].
Defined.

(** X21: a song that cannot be found does not interrupt the current one.
    Whether the search raises, finds nothing, finds a result without a
    video id, or the stream cannot be extracted or is empty, [play_music]
    answers that it could not find the song and leaves the player, the
    last song and the calls made so far as they are. *)
Theorem unfound_song_keeps_playback (V : MusicServices) (song : string) (M : Music) :
  ((exists msg, yt_search V (songs_asked M) song = Throws msg) \/
   yt_search V (songs_asked M) song = Done [] \/
   (exists rest, yt_search V (songs_asked M) song = Done (None :: rest)) \/
   (exists video_id rest,
      yt_search V (songs_asked M) song = Done (Some video_id :: rest) /\
      ((exists msg, yt_extract V (songs_asked M)
                      ("https://www.youtube.com/watch?v=" +:+ video_id) = Throws msg) \/
       yt_extract V (songs_asked M)
         ("https://www.youtube.com/watch?v=" +:+ video_id) = Done None \/
       yt_extract V (songs_asked M)
         ("https://www.youtube.com/watch?v=" +:+ video_id) = Done (Some "")))) ->
  fst (play_music V song M) = "Sorry, couldn’t find '" +:+ song +:+ "'." /\
  player (snd (play_music V song M)) = player M /\
  last_song (snd (play_music V song M)) = last_song M /\
  vlc_calls (snd (play_music V song M)) = vlc_calls M.
Proof.
  intros Hcause. unfold play_music, _get_stream_url.
  destruct Hcause as [[msg ->]|[->|[[rest ->]|(vid & rest & -> & Hext)]]];
    try by repeat split.
  destruct Hext as [[msg ->]|[->| ->]]; by repeat split.
Qed.

Lemma unfound_song_keeps_playback_witness :
  let M := snd (play_music one_stream "song" no_music) in
  yt_search no_results (songs_asked M) "other" = Done [] /\
  fst (play_music no_results "other" M) = "Sorry, couldn’t find '" +:+ "other" +:+ "'." /\
  player (snd (play_music no_results "other" M)) = Some 0.
Proof.
  intros M.
  destruct (unfound_song_keeps_playback no_results "other" M (or_intror (or_introl eq_refl)))
    as (Hmsg & Hp & _).
  split; [reflexivity|]. split; [exact Hmsg|]. rewrite Hp. reflexivity.
Defined.
